(** * GeoLib: the formulas of [geo.py] over the reals

    A shallow embedding of the class [Geo] of [src/geo.py].

    Numbers.  A Python [float] is read as a real number: rounding, overflow,
    signed zeros, NaN and the infinities are left out.  What is kept is the
    way Python's arithmetic and its [math] module fail: a float division by
    zero raises [ZeroDivisionError], and [math.sqrt], [math.log],
    [math.asin] and [math.acos] raise [ValueError] outside their domains;
    none of them hands back NaN or an infinity, and [math.sin], [math.cos],
    [math.tan] and [math.atan2] never raise.  Rounding can take a float
    argument just out of a domain that the exact argument stays in, so a
    statement about all inputs leaves room for the handler's 1 wherever a
    formula takes a square root, a logarithm, an arc sine or an arc cosine,
    or is given hypotheses that keep the arguments clear of such edges.

    Control.  Every method first checks its ranges and raises one of the two
    range exceptions, then runs its formula inside [try: ... except Exception]
    whose handler writes a line to [sys.stderr] and returns the integer [1].
    The line on [sys.stderr] is not part of a method's result and is not
    modelled. *)

From Stdlib Require Import Reals Lra Lia ZArith Bool.

Open Scope R_scope.

(** ** Exceptions, values and results *)

Inductive PyExn : Type :=
| LatitudeRangeException
| LongitudeRangeException
| ZeroDivisionError
| ValueError.

(** What a method hands back: a float, an [int] (the literals [0] and [1]
    of the source) or a two-element list [[lat, lon]]. *)
Inductive PyVal : Type :=
| VFloat (x : R)
| VInt (n : Z)
| VPair (lat lon : R).

Inductive result (A : Type) : Type :=
| Return (a : A)
| Raise (e : PyExn).

Arguments Return {A} a.
Arguments Raise {A} e.

Definition bind {A B : Type} (m : result A) (k : A -> result B) : result B :=
  match m with
  | Return a => k a
  | Raise e => Raise e
  end.

Notation "x <- m ;; k" := (bind m (fun x => k))
  (at level 61, m at next level, right associativity).

(** [try: body except Exception as ex: sys.stderr.write(...); return 1],
    followed by the [return] statement that stands after the block.  The
    body yields either the value of a [return] placed inside the block
    ([inl]) or the locals the closing [return] reads ([inr]). *)
Definition try_except {A : Type} (body : result (PyVal + A))
    (closing : A -> PyVal) : result PyVal :=
  match body with
  | Return (inl v) => Return v
  | Return (inr a) => Return (closing a)
  | Raise _ => Return (VInt 1)
  end.

(** A body without a [return] of its own. *)
Definition falls_through {A : Type} (m : result A) : result (PyVal + A) :=
  a <- m ;; Return (inr a).

(** ** Comparisons and arithmetic of Python floats *)

Definition Rgtb (x y : R) : bool := if Rgt_dec x y then true else false.
Definition Rltb (x y : R) : bool := if Rlt_dec x y then true else false.
Definition Reqb (x y : R) : bool := if Req_dec_T x y then true else false.

(** [x / y] on floats. Division by a non-zero literal ([2.0], [R], ...) is
    written with [/] directly. *)
Definition py_div (x y : R) : result R :=
  if Req_dec_T y 0 then Raise ZeroDivisionError else Return (x / y).

(** [x % y] for a positive literal [y] (the source only uses [360] and
    [2 * math.pi]): the result has the sign of the divisor,
    [x - y * floor (x / y)]. *)
Definition py_mod (x y : R) : R := x - y * IZR (Int_part (x / y)).

(** [round(x, 2)] as Python 3 has it: to the nearest multiple of [1/100],
    a tie going to the even neighbour (Python 2 sends a tie away from zero,
    and a float next to a tie may fall on either side of it).  What is
    stated of [midpoint] below uses only that the result is a nearest
    hundredth, whichever way a tie goes. *)
Definition py_round2 (x : R) : R :=
  let s := x * 100 in
  let f := Int_part s in
  let r := s - IZR f in
  let n := if Rlt_dec r (1 / 2) then f
           else if Rgt_dec r (1 / 2) then (f + 1)%Z
           else if Z.even f then f else (f + 1)%Z in
  IZR n / 100.

(** ** The [math] module *)

Module math.

Definition pi : R := PI.

Definition radians (x : R) : R := x * (PI / 180).
Definition degrees (x : R) : R := x * (180 / PI).

Definition fabs (x : R) : R := Rabs x.
Definition pow (x : R) (n : nat) : R := x ^ n.

Definition sqrt (x : R) : result R :=
  if Rlt_dec x 0 then Raise ValueError else Return (R_sqrt.sqrt x).

Definition log (x : R) : result R :=
  if Rle_dec x 0 then Raise ValueError else Return (ln x).

Definition asin (x : R) : result R :=
  if Rlt_dec x (-1) then Raise ValueError
  else if Rgt_dec x 1 then Raise ValueError
  else Return (Ratan.asin x).

Definition acos (x : R) : result R :=
  if Rlt_dec x (-1) then Raise ValueError
  else if Rgt_dec x 1 then Raise ValueError
  else Return (Ratan.acos x).

(** [math.tan] never raises on a finite float.  The real tangent has no
    value where the cosine vanishes; no float is such a point, and at the
    float next to a right angle, the one such point a latitude in range
    leads to, [math.tan] returns 1.633123935319537e16.  The model returns
    that number wherever the cosine vanishes. *)
Definition tan_right_angle : R := 16331239353195370.

Definition tan (x : R) : result R :=
  Return (if Req_dec_T (cos x) 0 then tan_right_angle else Rtrigo1.tan x).

(** [math.atan2(y, x)]: the angle of the point [(x, y)], in [(-pi, pi]],
    and [0] at the origin. *)
Definition atan2 (y x : R) : R :=
  if Rlt_dec 0 x then atan (y / x)
  else if Rlt_dec x 0 then
    (if Rle_dec 0 y then atan (y / x) + PI else atan (y / x) - PI)
  else if Rlt_dec 0 y then PI / 2
  else if Rlt_dec y 0 then - (PI / 2)
  else 0.

(** A real number is neither NaN nor infinite. *)
Definition isnan (x : R) : bool := false.
Definition isinf (x : R) : bool := false.

End math.

(** ** The class [Geo] *)

Module Geo.

Definition R_earth : R := 6371.

(** The two range tests that open every method taking two points. *)
Definition check_two_points (lat1 lon1 lat2 lon2 : R) : result unit :=
  if (Rgtb lat1 90 || Rltb lat1 (-90)) || (Rgtb lat2 90 || Rltb lat2 (-90))
  then Raise LatitudeRangeException
  else if (Rgtb lon1 180 || Rltb lon1 (-180))
          || (Rgtb lon2 180 || Rltb lon2 (-180))
  then Raise LongitudeRangeException
  else Return tt.

(** The range tests of [rhumb_destination_point], [rhumb_midpoint] and
    [destination_point]: the first point only. *)
Definition check_one_point (lat1 lon1 : R) : result unit :=
  if Rgtb lat1 90 || Rltb lat1 (-90)
  then Raise LatitudeRangeException
  else if Rgtb lon1 180 || Rltb lon1 (-180)
  then Raise LongitudeRangeException
  else Return tt.

(** *** distance_haversine *)

Definition haversine_a (lat1 lon1 lat2 lon2 : R) : R :=
  let Lat := math.radians (lat2 - lat1) in
  let Lon := math.radians (lon2 - lon1) in
  sin (Lat / 2) * sin (Lat / 2)
  + cos (math.radians lat1) * cos (math.radians lat2)
    * sin (Lon / 2) * sin (Lon / 2).

Definition distance_haversine_try (lat1 lon1 lat2 lon2 : R) : result R :=
  let a := haversine_a lat1 lon1 lat2 lon2 in
  sa <- math.sqrt a ;;
  sb <- math.sqrt (1 - a) ;;
  Return (2 * math.atan2 sa sb).

Definition distance_haversine (lat1 lon1 lat2 lon2 : R) : result PyVal :=
  _ <- check_two_points lat1 lon1 lat2 lon2 ;;
  try_except (falls_through (distance_haversine_try lat1 lon1 lat2 lon2))
             (fun c => VFloat (R_earth * c)).

(** *** distance_sloc *)

Definition distance_sloc_try (lat1 lon1 lat2 lon2 : R) : result R :=
  math.acos (sin (math.radians lat1) * sin (math.radians lat2)
             + cos (math.radians lat1) * cos (math.radians lat2)
               * cos (math.radians (lon2 - lon1))).

Definition distance_sloc (lat1 lon1 lat2 lon2 : R) : result PyVal :=
  _ <- check_two_points lat1 lon1 lat2 lon2 ;;
  try_except (falls_through (distance_sloc_try lat1 lon1 lat2 lon2))
             (fun c => VFloat (R_earth * c)).

(** *** initial_bearing and final_bearing *)

Definition bearing_try (lat1 lon1 lat2 lon2 : R) : result R :=
  let lat1 := math.radians lat1 in
  let lat2 := math.radians lat2 in
  let lon1 := math.radians lon1 in
  let lon2 := math.radians lon2 in
  let dLon := lon2 - lon1 in
  let y := sin dLon * cos lat2 in
  let x := cos lat1 * sin lat2 - sin lat1 * cos lat2 * cos dLon in
  Return (math.atan2 y x).

Definition initial_bearing (lat1 lon1 lat2 lon2 : R) : result PyVal :=
  _ <- check_two_points lat1 lon1 lat2 lon2 ;;
  try_except (falls_through (bearing_try lat1 lon1 lat2 lon2))
             (fun brng => VFloat (py_mod (math.degrees brng + 360) 360)).

Definition final_bearing (lat1 lon1 lat2 lon2 : R) : result PyVal :=
  _ <- check_two_points lat1 lon1 lat2 lon2 ;;
  try_except (falls_through (bearing_try lat1 lon1 lat2 lon2))
             (fun brng => VFloat (py_mod (math.degrees brng + 180) 360)).

(** *** midpoint *)

Definition midpoint_try (lat1 lon1 lat2 lon2 : R) : result (R * R) :=
  let lat1 := math.radians lat1 in
  let lon1 := math.radians lon1 in
  let lat2 := math.radians lat2 in
  let lon2 := math.radians lon2 in
  let bx := cos lat2 * cos (lon2 - lon1) in
  let by_ := cos lat2 * sin (lon2 - lon1) in
  h <- math.sqrt ((cos lat1 + bx) * (cos lat1 + bx) + by_ * by_) ;;
  let mLat := math.atan2 (sin lat1 + sin lat2) h in
  let mLon := lon1 + math.atan2 by_ (cos lat1 + bx) in
  Return (mLat, mLon).

Definition midpoint (lat1 lon1 lat2 lon2 : R) : result PyVal :=
  _ <- check_two_points lat1 lon1 lat2 lon2 ;;
  try_except (falls_through (midpoint_try lat1 lon1 lat2 lon2))
             (fun m => VPair (py_round2 (math.degrees (fst m)))
                             (py_round2 (math.degrees (snd m)))).

(** *** intersection *)

(** The angular separation [d] of the two points (arguments in radians). *)
Definition intersection_d (lat1 lon1 lat2 lon2 : R) : result R :=
  let dLat := lat2 - lat1 in
  let dLon := lon2 - lon1 in
  h <- math.sqrt (sin (dLat / 2) * sin (dLat / 2)
                  + cos lat1 * cos lat2 * sin (dLon / 2) * sin (dLon / 2)) ;;
  s <- math.asin h ;;
  Return (2 * s).

(** The angles [a1] and [a2] of the triangle at the two points. *)
Definition intersection_angles (lat1 lon1 brng1 lat2 lon2 brng2 d : R)
    : result (R * R) :=
  q1 <- py_div (sin lat2 - sin lat1 * cos d) (sin d * cos lat1) ;;
  f1 <- math.acos q1 ;;
  let f1 := if math.isnan f1 then 0 else f1 in
  q2 <- py_div (sin lat1 - sin lat2 * cos d) (sin d * cos lat2) ;;
  f2 <- math.acos q2 ;;
  let b := if Rgtb (sin (lon2 - lon1)) 0
           then (f1, 2 * math.pi - f2)
           else (2 * math.pi - f1, f2) in
  let a1 := py_mod (brng1 - fst b + math.pi) (2 * math.pi) - math.pi in
  let a2 := py_mod (snd b - brng2 + math.pi) (2 * math.pi) - math.pi in
  Return (a1, a2).

(** The crossing, once [a1] and [a2] are known and neither test for a
    degenerate crossing fired.  Radians. *)
Definition intersection_point (lat1 lon1 brng1 d a1 a2 : R)
    : result (R * R) :=
  a3 <- math.acos (- cos a1 * cos a2 + sin a1 * sin a2 * cos d) ;;
  let dx := math.atan2 (sin d * sin a1 * sin a2)
                       (cos a2 + cos a1 * cos a3) in
  lat3 <- math.asin (sin lat1 * cos dx + cos lat1 * sin dx * cos brng1) ;;
  let dLon13 := math.atan2 (sin brng1 * sin dx * cos lat1)
                           (cos dx - sin lat1 * sin lat3) in
  let lon3 := py_mod (lon1 + dLon13 + math.pi) (2 * math.pi) - math.pi in
  Return (lat3, lon3).

Definition intersection_try (lat1 lon1 brng1 lat2 lon2 brng2 : R)
    : result (PyVal + R * R) :=
  let lat1 := math.radians lat1 in
  let lon1 := math.radians lon1 in
  let lat2 := math.radians lat2 in
  let lon2 := math.radians lon2 in
  let brng1 := math.radians brng1 in
  let brng2 := math.radians brng2 in
  d <- intersection_d lat1 lon1 lat2 lon2 ;;
  if Reqb d 0 then Return (inl (VInt 0))
  else
    a <- intersection_angles lat1 lon1 brng1 lat2 lon2 brng2 d ;;
    let a1 := fst a in
    let a2 := snd a in
    if Reqb (sin a1) 0 && Reqb (sin a2) 0 then Return (inl (VInt 0))
    else if Rltb (sin a1 * sin a2) 0 then Return (inl (VInt 0))
    else
      p <- intersection_point lat1 lon1 brng1 d a1 a2 ;;
      Return (inr p).

Definition intersection (lat1 lon1 brng1 lat2 lon2 brng2 : R)
    : result PyVal :=
  _ <- check_two_points lat1 lon1 lat2 lon2 ;;
  try_except (intersection_try lat1 lon1 brng1 lat2 lon2 brng2)
             (fun p => VPair (math.degrees (fst p)) (math.degrees (snd p))).

(** *** The rhumb-line methods *)

(** [math.log(math.tan(lat2/2 + math.pi/4)/math.tan(lat1/2 + math.pi/4))] *)
Definition rhumb_dPhi (lat1 lat2 : R) : result R :=
  t2 <- math.tan (lat2 / 2 + math.pi / 4) ;;
  t1 <- math.tan (lat1 / 2 + math.pi / 4) ;;
  r <- py_div t2 t1 ;;
  math.log r.

(** [if math.isinf(dLat/dPhi): q = math.cos(lat1) else: q = dLat/dPhi] *)
Definition rhumb_q (lat1 dLat dPhi : R) : result R :=
  t <- py_div dLat dPhi ;;
  if math.isinf t then Return (cos lat1) else py_div dLat dPhi.

(** The shorter way across the 180 meridian. *)
Definition rhumb_wrap (dLon : R) : R :=
  if Rgtb (math.fabs dLon) math.pi then
    (if Rgtb dLon 0 then - (2 * math.pi - dLon) else 2 * math.pi + dLon)
  else dLon.

Definition rhumb_distance_try (lat1 lon1 lat2 lon2 : R) : result R :=
  let lat1 := math.radians lat1 in
  let lat2 := math.radians lat2 in
  let lon1 := math.radians lon1 in
  let lon2 := math.radians lon2 in
  let dLat := lat2 - lat1 in
  let dLon := math.fabs (lon2 - lon1) in
  dPhi <- rhumb_dPhi lat1 lat2 ;;
  q <- rhumb_q lat1 dLat dPhi ;;
  let dLon := rhumb_wrap dLon in
  s <- math.sqrt (math.pow dLat 2 + math.pow q 2 * math.pow dLon 2) ;;
  Return (s * R_earth).

Definition rhumb_distance (lat1 lon1 lat2 lon2 : R) : result PyVal :=
  _ <- check_two_points lat1 lon1 lat2 lon2 ;;
  try_except (falls_through (rhumb_distance_try lat1 lon1 lat2 lon2))
             (fun dist => VFloat dist).

Definition rhumb_bearing_try (lat1 lon1 lat2 lon2 : R) : result R :=
  let lat1 := math.radians lat1 in
  let lat2 := math.radians lat2 in
  let lon1 := math.radians lon1 in
  let lon2 := math.radians lon2 in
  let dLon := lon2 - lon1 in
  dPhi <- rhumb_dPhi lat1 lat2 ;;
  let dLon := rhumb_wrap dLon in
  Return (math.atan2 dLon dPhi).

Definition rhumb_bearing (lat1 lon1 lat2 lon2 : R) : result PyVal :=
  _ <- check_two_points lat1 lon1 lat2 lon2 ;;
  try_except (falls_through (rhumb_bearing_try lat1 lon1 lat2 lon2))
             (fun brng => VFloat (py_mod (math.degrees brng + 360) 360)).

Definition rhumb_destination_point_try (lat1 lon1 brng dist : R)
    : result (R * R) :=
  let d := dist / R_earth in
  let lat1 := math.radians lat1 in
  let lon1 := math.radians lon1 in
  let brng := math.radians brng in
  let lat2 := lat1 + d * cos brng in
  let dLat := lat2 - lat1 in
  dPhi <- rhumb_dPhi lat1 lat2 ;;
  q <- rhumb_q lat1 dLat dPhi ;;
  dLon <- py_div (d * sin brng) q ;;
  let lat2 := if Rgtb (math.fabs lat2) (math.pi / 2) then
                (if Rgtb lat2 0 then math.pi - lat2 else - math.pi - lat2)
              else lat2 in
  let lon2 := py_mod (lon1 + dLon + 3 * math.pi) (2 * math.pi) - math.pi in
  Return (lat2, lon2).

Definition rhumb_destination_point (lat1 lon1 brng dist : R)
    : result PyVal :=
  _ <- check_one_point lat1 lon1 ;;
  try_except (falls_through (rhumb_destination_point_try lat1 lon1 brng dist))
             (fun p => VPair (math.degrees (fst p)) (math.degrees (snd p))).

Definition rhumb_midpoint_try (lat1 lon1 lat2 lon2 : R) : result (R * R) :=
  let lat1 := math.radians lat1 in
  let lat2 := math.radians lat2 in
  let lon1 := math.radians lon1 in
  let lon2 := math.radians lon2 in
  let lat3 := (lat2 + lat1) / 2 in
  f1 <- math.tan (math.pi / 4 + lat1 / 2) ;;
  f2 <- math.tan (math.pi / 4 + lat2 / 2) ;;
  f3 <- math.tan (math.pi / 4 + lat3 / 2) ;;
  l3 <- math.log f3 ;;
  l2 <- math.log f2 ;;
  l1 <- math.log f1 ;;
  r <- py_div f2 f1 ;;
  lr <- math.log r ;;
  lon3 <- py_div ((lon2 - lon1) * l3 + lon1 * l2 - lon2 * l1) lr ;;
  let lon3 := if math.isnan lon3 then (lon1 + lon2) / 2 else lon3 in
  let lon3 := py_mod (lon3 + 3 * math.pi) (2 * math.pi) - math.pi in
  Return (lat3, lon3).

Definition rhumb_midpoint (lat1 lon1 lat2 lon2 : R) : result PyVal :=
  _ <- check_one_point lat1 lon1 ;;
  try_except (falls_through (rhumb_midpoint_try lat1 lon1 lat2 lon2))
             (fun p => VPair (math.degrees (fst p)) (math.degrees (snd p))).

(** *** destination_point *)

Definition destination_point_try (lat1 lon1 brng dist : R)
    : result (R * R) :=
  let dist := dist / R_earth in
  let lat1 := math.radians lat1 in
  let lon1 := math.radians lon1 in
  let brng := math.radians brng in
  lat2 <- math.asin (sin lat1 * cos dist + cos lat1 * sin dist * cos brng) ;;
  let lon2 := lon1 + math.atan2 (sin brng * sin dist * cos lat1)
                                (cos dist - sin lat1 * sin lat2) in
  let lon2 := py_mod (lon2 + 3 * math.pi) (2 * math.pi) - math.pi in
  Return (lat2, lon2).

Definition destination_point (lat1 lon1 brng dist : R) : result PyVal :=
  _ <- check_one_point lat1 lon1 ;;
  try_except (falls_through (destination_point_try lat1 lon1 brng dist))
             (fun p => VPair (math.degrees (fst p)) (math.degrees (snd p))).

End Geo.

(** ** Valid coordinates *)

Definition valid_lat (lat : R) : Prop := -90 <= lat <= 90.
Definition valid_lon (lon : R) : Prop := -180 <= lon <= 180.

(** ** Quantities the statements name *)

(** The angle both bearing methods normalise, in radians. *)
Definition bearing_angle (lat1 lon1 lat2 lon2 : R) : R :=
  let dLon := math.radians lon2 - math.radians lon1 in
  math.atan2
    (sin dLon * cos (math.radians lat2))
    (cos (math.radians lat1) * sin (math.radians lat2)
     - sin (math.radians lat1) * cos (math.radians lat2) * cos dLon).

(** Latitude of the great-circle destination and the change of longitude
    on the way, in radians, as [destination_point] computes them. *)
Definition destination_lat (lat1 brng dist : R) : R :=
  asin (sin (math.radians lat1) * cos (dist / Geo.R_earth)
        + cos (math.radians lat1) * sin (dist / Geo.R_earth)
          * cos (math.radians brng)).

Definition destination_dlon (lat1 brng dist : R) : R :=
  math.atan2
    (sin (math.radians brng) * sin (dist / Geo.R_earth)
     * cos (math.radians lat1))
    (cos (dist / Geo.R_earth)
     - sin (math.radians lat1) * sin (destination_lat lat1 brng dist)).

Definition destination_lon (lat1 lon1 brng dist : R) : R :=
  py_mod (math.radians lon1 + destination_dlon lat1 brng dist + 3 * math.pi)
         (2 * math.pi) - math.pi.

(** The two shapes of a result on valid coordinates: the float, or the
    pair, of the formula, or else the integer 1 of the handler. *)
Definition float_or_one (r : result PyVal) : Prop :=
  r = Return (VInt 1) \/ exists x, r = Return (VFloat x).

Definition pair_or_one (r : result PyVal) : Prop :=
  r = Return (VInt 1) \/ exists lat lon, r = Return (VPair lat lon).

(** The angular separation of two points given in radians. *)
Definition separation (lat1 lon1 lat2 lon2 : R) : R :=
  2 * asin (sqrt (sin ((lat2 - lat1) / 2) * sin ((lat2 - lat1) / 2)
                  + cos lat1 * cos lat2
                    * sin ((lon2 - lon1) / 2) * sin ((lon2 - lon1) / 2))).

(** The Mercator factor of a latitude in degrees, [tan (lat/2 + pi/4)]
    with the latitude in radians: the quantity whose logarithm the rhumb
    methods take. *)
Definition mercator (lat : R) : R := tan (math.radians lat / 2 + PI / 4).

(** ** Range tests *)

Ltac decide_cmp :=
  repeat match goal with
  | |- context [Rgt_dec ?a ?b] => destruct (Rgt_dec a b); try lra
  | |- context [Rlt_dec ?a ?b] => destruct (Rlt_dec a b); try lra
  | |- context [Rle_dec ?a ?b] => destruct (Rle_dec a b); try lra
  | |- context [Req_dec_T ?a ?b] => destruct (Req_dec_T a b); try lra
  end.

Lemma check_two_points_valid (lat1 lon1 lat2 lon2 : R) :
  valid_lat lat1 -> valid_lon lon1 -> valid_lat lat2 -> valid_lon lon2 ->
  Geo.check_two_points lat1 lon1 lat2 lon2 = Return tt.
Proof.
  unfold valid_lat, valid_lon, Geo.check_two_points, Rgtb, Rltb.
  intros. decide_cmp. reflexivity.
Qed.

Lemma check_one_point_valid (lat1 lon1 : R) :
  valid_lat lat1 -> valid_lon lon1 -> Geo.check_one_point lat1 lon1 = Return tt.
Proof.
  unfold valid_lat, valid_lon, Geo.check_one_point, Rgtb, Rltb.
  intros. decide_cmp. reflexivity.
Qed.

(** ** Degrees, radians and the remainder *)

Lemma radians_degrees (x : R) : math.radians (math.degrees x) = x.
Proof. unfold math.radians, math.degrees. field. apply PI_neq0. Qed.

Lemma radians_minus (x y : R) :
  math.radians (x - y) = math.radians x - math.radians y.
Proof. unfold math.radians. ring. Qed.

Lemma radians_0 : math.radians 0 = 0.
Proof. unfold math.radians. ring. Qed.

Lemma py_mod_bound (x y : R) : 0 < y -> 0 <= py_mod x y < y.
Proof.
  intros Hy. unfold py_mod.
  destruct (base_Int_part (x / y)) as [H1 H2].
  assert (Hx : x = y * (x / y)) by (field; lra).
  set (k := IZR (Int_part (x / y))) in *.
  set (q := x / y) in *.
  split; nra.
Qed.

Lemma py_mod_shift (x y : R) : exists k : Z, py_mod x y = x - y * IZR k.
Proof. exists (Int_part (x / y)). reflexivity. Qed.

(** ** Trigonometry used by the formulas *)

Lemma sin_half_sqr (x : R) : sin (x / 2) * sin (x / 2) = (1 - cos x) / 2.
Proof.
  pose proof (cos_2a_sin (x / 2)) as H.
  replace (2 * (x / 2)) with x in H by field. lra.
Qed.

Lemma sin_cos_sqr (x : R) : sin x * sin x + cos x * cos x = 1.
Proof. pose proof (sin2_cos2 x) as H. unfold Rsqr in H. exact H. Qed.

Lemma radians_lat_bound (lat : R) :
  valid_lat lat -> - (PI / 2) <= math.radians lat <= PI / 2.
Proof.
  unfold valid_lat, math.radians. intros [H1 H2].
  pose proof PI_RGT_0. split; nra.
Qed.

Lemma cos_radians_lat (lat : R) : valid_lat lat -> 0 <= cos (math.radians lat).
Proof.
  intros H. destruct (radians_lat_bound lat H). now apply cos_ge_0.
Qed.

(** The haversine term lies in [[0, 1]] as soon as both cosines of the
    latitudes are non-negative. *)
Lemma hav_term_bound (p1 p2 l : R) :
  0 <= cos p1 -> 0 <= cos p2 ->
  0 <= sin ((p2 - p1) / 2) * sin ((p2 - p1) / 2)
       + cos p1 * cos p2 * sin (l / 2) * sin (l / 2) <= 1.
Proof.
  intros H1 H2.
  rewrite Rmult_assoc with (r1 := cos p1 * cos p2).
  rewrite !sin_half_sqr, cos_minus.
  pose proof (COS_bound l) as [Hl1 Hl2].
  pose proof (COS_bound (p2 + p1)) as [Hs1 Hs2].
  rewrite cos_plus in Hs1, Hs2.
  assert (0 <= cos p1 * cos p2) by nra.
  pose proof (COS_bound (p2 - p1)) as [Hd1 Hd2].
  rewrite cos_minus in Hd1, Hd2.
  split; nra.
Qed.

Lemma haversine_a_bound (lat1 lon1 lat2 lon2 : R) :
  valid_lat lat1 -> valid_lat lat2 ->
  0 <= Geo.haversine_a lat1 lon1 lat2 lon2 <= 1.
Proof.
  intros H1 H2. unfold Geo.haversine_a.
  rewrite radians_minus.
  apply hav_term_bound; now apply cos_radians_lat.
Qed.

Lemma haversine_a_sym (lat1 lon1 lat2 lon2 : R) :
  Geo.haversine_a lat1 lon1 lat2 lon2 = Geo.haversine_a lat2 lon2 lat1 lon1.
Proof.
  unfold Geo.haversine_a.
  replace (math.radians (lat1 - lat2) / 2)
    with (- (math.radians (lat2 - lat1) / 2)) by (unfold math.radians; field).
  replace (math.radians (lon1 - lon2) / 2)
    with (- (math.radians (lon2 - lon1) / 2)) by (unfold math.radians; field).
  rewrite !sin_neg. ring.
Qed.

Lemma math_sqrt_nonneg (x : R) :
  0 <= x -> math.sqrt x = Return (sqrt x).
Proof. intros H. unfold math.sqrt. decide_cmp. reflexivity. Qed.

Lemma distance_haversine_value (lat1 lon1 lat2 lon2 : R) :
  valid_lat lat1 -> valid_lon lon1 -> valid_lat lat2 -> valid_lon lon2 ->
  Geo.distance_haversine lat1 lon1 lat2 lon2 =
  Return (VFloat (Geo.R_earth *
    (2 * math.atan2 (sqrt (Geo.haversine_a lat1 lon1 lat2 lon2))
                    (sqrt (1 - Geo.haversine_a lat1 lon1 lat2 lon2))))).
Proof.
  intros Ha Hb Hc Hd. unfold Geo.distance_haversine.
  rewrite check_two_points_valid by assumption. cbn [bind].
  unfold Geo.distance_haversine_try.
  destruct (haversine_a_bound lat1 lon1 lat2 lon2 Ha Hc) as [H0 H1].
  rewrite !math_sqrt_nonneg by lra. reflexivity.
Qed.

Lemma atan2_0_1 : math.atan2 0 1 = 0.
Proof.
  unfold math.atan2. decide_cmp.
  replace (0 / 1) with 0 by field. apply atan_0.
Qed.

(** C6. For valid points the haversine distance does not depend on the
    order of the two points, and the distance of a valid point to itself
    is the float 0. *)
Theorem distance_haversine_symmetric (lat1 lon1 lat2 lon2 : R) :
  valid_lat lat1 -> valid_lon lon1 -> valid_lat lat2 -> valid_lon lon2 ->
  Geo.distance_haversine lat1 lon1 lat2 lon2
    = Geo.distance_haversine lat2 lon2 lat1 lon1 /\
  Geo.distance_haversine lat1 lon1 lat1 lon1 = Return (VFloat 0).
Proof.
  intros Ha Hb Hc Hd. split.
  - rewrite !distance_haversine_value by assumption.
    rewrite (haversine_a_sym lat2 lon2 lat1 lon1). reflexivity.
  - rewrite distance_haversine_value by assumption.
    assert (E : Geo.haversine_a lat1 lon1 lat1 lon1 = 0).
    { unfold Geo.haversine_a. rewrite !Rminus_diag, radians_0.
      replace (0 / 2) with 0 by field. rewrite sin_0. ring. }
    rewrite E, Rminus_0_r, sqrt_0, sqrt_1, atan2_0_1.
    do 2 f_equal. ring.
Qed.

Lemma distance_haversine_symmetric_witness :
  Geo.distance_haversine 53 21 54 18 = Geo.distance_haversine 54 18 53 21 /\
  Geo.distance_haversine 53 21 53 21 = Return (VFloat 0).
Proof.
  apply (distance_haversine_symmetric 53 21 54 18);
    unfold valid_lat, valid_lon; lra.
Defined.

(** ** Bearings *)

(** C8. For two valid points both bearings are floats in [[0, 360)]: the
    initial bearing is [(deg + 360) mod 360] and the final bearing
    [(deg + 180) mod 360] of one and the same atan2 angle. *)
Theorem bearings_normalized (lat1 lon1 lat2 lon2 : R) :
  valid_lat lat1 -> valid_lon lon1 -> valid_lat lat2 -> valid_lon lon2 ->
  let deg := math.degrees (bearing_angle lat1 lon1 lat2 lon2) in
  Geo.initial_bearing lat1 lon1 lat2 lon2
    = Return (VFloat (py_mod (deg + 360) 360)) /\
  Geo.final_bearing lat1 lon1 lat2 lon2
    = Return (VFloat (py_mod (deg + 180) 360)) /\
  0 <= py_mod (deg + 360) 360 < 360 /\
  0 <= py_mod (deg + 180) 360 < 360.
Proof.
  intros Ha Hb Hc Hd deg.
  unfold Geo.initial_bearing, Geo.final_bearing.
  rewrite check_two_points_valid by assumption.
  repeat split; try reflexivity; apply py_mod_bound; lra.
Qed.

Lemma bearings_normalized_witness :
  let deg := math.degrees (bearing_angle 50 5 58 3) in
  Geo.initial_bearing 50 5 58 3 = Return (VFloat (py_mod (deg + 360) 360)) /\
  Geo.final_bearing 50 5 58 3 = Return (VFloat (py_mod (deg + 180) 360)) /\
  0 <= py_mod (deg + 360) 360 < 360 /\
  0 <= py_mod (deg + 180) 360 < 360.
Proof.
  apply (bearings_normalized 50 5 58 3); unfold valid_lat, valid_lon; lra.
Defined.

(** ** The handler *)

Lemma try_except_raise {A : Type} (m : result A) (k : A -> PyVal) (e : PyExn) :
  m = Raise e -> try_except (falls_through m) k = Return (VInt 1).
Proof. intros ->. reflexivity. Qed.

Lemma try_except_total {A : Type} (m : result A) (k : A -> PyVal) :
  try_except (falls_through m) k = Return (VInt 1)
  \/ exists a, m = Return a /\ try_except (falls_through m) k = Return (k a).
Proof. destruct m as [a | e]; [right; exists a; split | left]; reflexivity. Qed.

(** ** Rhumb lines along a parallel *)

Lemma rhumb_dPhi_parallel (lat : R) :
  Geo.rhumb_dPhi lat lat = Return 0 \/ exists e, Geo.rhumb_dPhi lat lat = Raise e.
Proof.
  unfold Geo.rhumb_dPhi, math.tan. cbn [bind].
  set (t := if Req_dec_T (cos (lat / 2 + math.pi / 4)) 0
            then math.tan_right_angle else tan (lat / 2 + math.pi / 4)).
  unfold py_div.
  destruct (Req_dec_T t 0) as [Ht | Ht].
  - right. eexists. reflexivity.
  - left. cbn [bind]. unfold math.log.
    replace (t / t) with 1 by (field; assumption).
    destruct (Rle_dec 1 0); [lra |]. now rewrite ln_1.
Qed.

Lemma rhumb_q_zero (lat1 dLat : R) :
  Geo.rhumb_q lat1 dLat 0 = Raise ZeroDivisionError.
Proof.
  unfold Geo.rhumb_q, py_div.
  destruct (Req_dec_T 0 0) as [_ | H]; [reflexivity | now elim H].
Qed.

Lemma rhumb_distance_try_parallel (lat lon1 lon2 : R) :
  exists e, Geo.rhumb_distance_try lat lon1 lat lon2 = Raise e.
Proof.
  unfold Geo.rhumb_distance_try.
  destruct (rhumb_dPhi_parallel (math.radians lat)) as [H | [e H]]; rewrite H.
  - cbn [bind]. rewrite rhumb_q_zero. eexists. reflexivity.
  - eexists. reflexivity.
Qed.

Lemma tan_PI4_defined : math.tan (PI / 4) = Return 1.
Proof.
  unfold math.tan. rewrite cos_PI4.
  destruct (Req_dec_T (1 / sqrt 2) 0) as [H | H].
  - exfalso. pose proof (sqrt_lt_R0 2 ltac:(lra)) as Hs.
    assert (0 < 1 / sqrt 2) by (apply Rdiv_lt_0_compat; lra). lra.
  - now rewrite tan_PI4.
Qed.

(** On the equator, from longitude 0 to longitude 10: the logarithm is 0
    and the quotient [dLat/dPhi] is a division by zero. *)
Lemma rhumb_distance_try_equator :
  Geo.rhumb_distance_try 0 0 0 10 = Raise ZeroDivisionError.
Proof.
  unfold Geo.rhumb_distance_try, Geo.rhumb_dPhi.
  rewrite radians_0. unfold math.pi.
  replace (0 / 2 + PI / 4) with (PI / 4) by field.
  rewrite tan_PI4_defined. cbn [bind]. unfold py_div.
  destruct (Req_dec_T 1 0) as [H | _]; [lra |]. cbn [bind].
  unfold math.log. replace (1 / 1) with 1 by field.
  destruct (Rle_dec 1 0); [lra |]. cbn [bind].
  rewrite ln_1. now rewrite rhumb_q_zero.
Qed.

Lemma rhumb_midpoint_try_parallel (lat lon1 lon2 : R) :
  exists e, Geo.rhumb_midpoint_try lat lon1 lat lon2 = Raise e.
Proof.
  unfold Geo.rhumb_midpoint_try.
  replace ((math.radians lat + math.radians lat) / 2)
    with (math.radians lat) by field.
  set (x := math.pi / 4 + math.radians lat / 2).
  destruct (math.tan x) as [t | e]; [| eexists; reflexivity].
  cbn [bind].
  destruct (math.log t) as [l | e] eqn:El; [| eexists; reflexivity].
  cbn [bind]. unfold math.log in El.
  destruct (Rle_dec t 0) as [Ht | Ht]; [discriminate |].
  unfold py_div at 1.
  destruct (Req_dec_T t 0) as [H0 | H0]; [lra |]. cbn [bind].
  replace (t / t) with 1 by (field; assumption).
  unfold math.log. destruct (Rle_dec 1 0); [lra |]. cbn [bind].
  rewrite ln_1. unfold py_div.
  destruct (Req_dec_T 0 0) as [_ | H]; [| now elim H].
  eexists. reflexivity.
Qed.

(** C4 (the code departs from the claim).  On a parallel the quotient
    [dLat/dPhi] is not computed: the division raises, the substitution
    [q = cos lat1] is never reached and the handler returns the integer 1. *)
Theorem rhumb_distance_parallel (lat lon1 lon2 : R) :
  valid_lat lat -> valid_lon lon1 -> valid_lon lon2 ->
  Geo.rhumb_distance lat lon1 lat lon2 = Return (VInt 1).
Proof.
  intros Ha Hb Hc. unfold Geo.rhumb_distance.
  rewrite check_two_points_valid by assumption. cbn [bind].
  destruct (rhumb_distance_try_parallel lat lon1 lon2) as [e He].
  now apply try_except_raise with (e := e).
Qed.

Lemma rhumb_distance_parallel_witness :
  Geo.rhumb_distance 0 0 0 10 = Return (VInt 1).
Proof.
  apply (rhumb_distance_parallel 0 0 10); unfold valid_lat, valid_lon; lra.
Defined.

(** C9 (the code departs from the claim).  For two points on a parallel
    the last division of the longitude formula is a division by zero (or a
    logarithm fails before it): the test [isnan] is never reached and the
    handler returns the integer 1, not the pair of arithmetic means. *)
Theorem rhumb_midpoint_parallel (lat lon1 lon2 : R) :
  valid_lat lat -> valid_lon lon1 -> valid_lon lon2 ->
  Geo.rhumb_midpoint lat lon1 lat lon2 = Return (VInt 1).
Proof.
  intros Ha Hb Hc. unfold Geo.rhumb_midpoint.
  rewrite check_one_point_valid by assumption. cbn [bind].
  destruct (rhumb_midpoint_try_parallel lat lon1 lon2) as [e He].
  now apply try_except_raise with (e := e).
Qed.

Lemma rhumb_midpoint_parallel_witness :
  Geo.rhumb_midpoint 50 4 50 71 = Return (VInt 1).
Proof.
  apply (rhumb_midpoint_parallel 50 4 71); unfold valid_lat, valid_lon; lra.
Defined.

(** ** Math exceptions inside the formulas *)

Lemma try_except_caught {A : Type} (body : result (PyVal + A))
    (k : A -> PyVal) (e : PyExn) :
  body = Raise e -> try_except body k = Return (VInt 1).
Proof. intros ->. reflexivity. Qed.

Ltac caught_by_handler :=
  intros;
  match goal with
  | |- bind (Geo.check_two_points _ _ _ _) _ = _ =>
      rewrite check_two_points_valid by assumption
  | |- bind (Geo.check_one_point _ _) _ = _ =>
      rewrite check_one_point_valid by assumption
  end;
  cbn [bind];
  match goal with
  | H : _ = Raise ?e |- _ =>
      first [ apply try_except_caught with (e := e); exact H
            | apply try_except_raise with (e := e); exact H ]
  end.

(** C10. Whenever the formula of a method raises inside its [try] block,
    on coordinates that passed the range tests, the method returns the
    integer 1 and raises nothing. *)
Theorem math_exception_returns_one :
  (forall lat1 lon1 lat2 lon2 e,
     valid_lat lat1 -> valid_lon lon1 -> valid_lat lat2 -> valid_lon lon2 ->
     Geo.distance_haversine_try lat1 lon1 lat2 lon2 = Raise e ->
     Geo.distance_haversine lat1 lon1 lat2 lon2 = Return (VInt 1)) /\
  (forall lat1 lon1 lat2 lon2 e,
     valid_lat lat1 -> valid_lon lon1 -> valid_lat lat2 -> valid_lon lon2 ->
     Geo.distance_sloc_try lat1 lon1 lat2 lon2 = Raise e ->
     Geo.distance_sloc lat1 lon1 lat2 lon2 = Return (VInt 1)) /\
  (forall lat1 lon1 lat2 lon2 e,
     valid_lat lat1 -> valid_lon lon1 -> valid_lat lat2 -> valid_lon lon2 ->
     Geo.bearing_try lat1 lon1 lat2 lon2 = Raise e ->
     Geo.initial_bearing lat1 lon1 lat2 lon2 = Return (VInt 1) /\
     Geo.final_bearing lat1 lon1 lat2 lon2 = Return (VInt 1)) /\
  (forall lat1 lon1 lat2 lon2 e,
     valid_lat lat1 -> valid_lon lon1 -> valid_lat lat2 -> valid_lon lon2 ->
     Geo.midpoint_try lat1 lon1 lat2 lon2 = Raise e ->
     Geo.midpoint lat1 lon1 lat2 lon2 = Return (VInt 1)) /\
  (forall lat1 lon1 brng1 lat2 lon2 brng2 e,
     valid_lat lat1 -> valid_lon lon1 -> valid_lat lat2 -> valid_lon lon2 ->
     Geo.intersection_try lat1 lon1 brng1 lat2 lon2 brng2 = Raise e ->
     Geo.intersection lat1 lon1 brng1 lat2 lon2 brng2 = Return (VInt 1)) /\
  (forall lat1 lon1 lat2 lon2 e,
     valid_lat lat1 -> valid_lon lon1 -> valid_lat lat2 -> valid_lon lon2 ->
     Geo.rhumb_distance_try lat1 lon1 lat2 lon2 = Raise e ->
     Geo.rhumb_distance lat1 lon1 lat2 lon2 = Return (VInt 1)) /\
  (forall lat1 lon1 lat2 lon2 e,
     valid_lat lat1 -> valid_lon lon1 -> valid_lat lat2 -> valid_lon lon2 ->
     Geo.rhumb_bearing_try lat1 lon1 lat2 lon2 = Raise e ->
     Geo.rhumb_bearing lat1 lon1 lat2 lon2 = Return (VInt 1)) /\
  (forall lat1 lon1 brng dist e,
     valid_lat lat1 -> valid_lon lon1 ->
     Geo.rhumb_destination_point_try lat1 lon1 brng dist = Raise e ->
     Geo.rhumb_destination_point lat1 lon1 brng dist = Return (VInt 1)) /\
  (forall lat1 lon1 lat2 lon2 e,
     valid_lat lat1 -> valid_lon lon1 ->
     Geo.rhumb_midpoint_try lat1 lon1 lat2 lon2 = Raise e ->
     Geo.rhumb_midpoint lat1 lon1 lat2 lon2 = Return (VInt 1)) /\
  (forall lat1 lon1 brng dist e,
     valid_lat lat1 -> valid_lon lon1 ->
     Geo.destination_point_try lat1 lon1 brng dist = Raise e ->
     Geo.destination_point lat1 lon1 brng dist = Return (VInt 1)).
Proof.
  repeat split; intros;
    unfold Geo.distance_haversine, Geo.distance_sloc, Geo.initial_bearing,
      Geo.final_bearing, Geo.midpoint, Geo.intersection, Geo.rhumb_distance,
      Geo.rhumb_bearing, Geo.rhumb_destination_point, Geo.rhumb_midpoint,
      Geo.destination_point;
    caught_by_handler.
Qed.

Lemma math_exception_returns_one_witness :
  Geo.rhumb_distance 0 0 0 10 = Return (VInt 1).
Proof.
  destruct math_exception_returns_one
    as (_ & _ & _ & _ & _ & H & _).
  apply (H 0 0 0 10 ZeroDivisionError);
    try (unfold valid_lat, valid_lon; lra).
  exact rhumb_distance_try_equator.
Defined.

(** ** Which points are range-checked *)

Lemma check_two_points_latitude (lat1 lon1 lat2 lon2 : R) :
  ~ valid_lat lat1 \/ ~ valid_lat lat2 ->
  Geo.check_two_points lat1 lon1 lat2 lon2 = Raise LatitudeRangeException.
Proof.
  unfold valid_lat, Geo.check_two_points, Rgtb, Rltb. intros H.
  destruct (Rgt_dec lat1 90), (Rlt_dec lat1 (-90)),
           (Rgt_dec lat2 90), (Rlt_dec lat2 (-90)); cbn; try reflexivity.
  exfalso. destruct H as [H | H]; apply H; lra.
Qed.

Lemma check_two_points_longitude (lat1 lon1 lat2 lon2 : R) :
  valid_lat lat1 -> valid_lat lat2 ->
  ~ valid_lon lon1 \/ ~ valid_lon lon2 ->
  Geo.check_two_points lat1 lon1 lat2 lon2 = Raise LongitudeRangeException.
Proof.
  unfold valid_lat, valid_lon, Geo.check_two_points, Rgtb, Rltb.
  intros H1 H2 H.
  destruct (Rgt_dec lat1 90), (Rlt_dec lat1 (-90)),
           (Rgt_dec lat2 90), (Rlt_dec lat2 (-90)); try lra. cbn.
  destruct (Rgt_dec lon1 180), (Rlt_dec lon1 (-180)),
           (Rgt_dec lon2 180), (Rlt_dec lon2 (-180)); cbn; try reflexivity.
  exfalso. destruct H as [H | H]; apply H; lra.
Qed.

(** The eight methods that open with the range tests on both points raise
    for a bad coordinate of either point, the latitude test coming first. *)
Lemma two_point_methods_checked (lat1 lon1 lat2 lon2 brng1 brng2 : R) (e : PyExn) :
  Geo.check_two_points lat1 lon1 lat2 lon2 = Raise e ->
  Geo.distance_haversine lat1 lon1 lat2 lon2 = Raise e /\
  Geo.distance_sloc lat1 lon1 lat2 lon2 = Raise e /\
  Geo.initial_bearing lat1 lon1 lat2 lon2 = Raise e /\
  Geo.final_bearing lat1 lon1 lat2 lon2 = Raise e /\
  Geo.midpoint lat1 lon1 lat2 lon2 = Raise e /\
  Geo.intersection lat1 lon1 brng1 lat2 lon2 brng2 = Raise e /\
  Geo.rhumb_distance lat1 lon1 lat2 lon2 = Raise e /\
  Geo.rhumb_bearing lat1 lon1 lat2 lon2 = Raise e.
Proof.
  intros H.
  unfold Geo.distance_haversine, Geo.distance_sloc, Geo.initial_bearing,
    Geo.final_bearing, Geo.midpoint, Geo.intersection, Geo.rhumb_distance,
    Geo.rhumb_bearing.
  rewrite H. repeat split.
Qed.

Lemma math_tan_defined (x : R) : cos x <> 0 -> math.tan x = Return (tan x).
Proof.
  intros H. unfold math.tan. destruct (Req_dec_T (cos x) 0); [contradiction |].
  reflexivity.
Qed.

Lemma math_log_pos (x : R) : 0 < x -> math.log x = Return (ln x).
Proof. intros H. unfold math.log. destruct (Rle_dec x 0); [lra | reflexivity]. Qed.

Lemma math_log_nonpos (x : R) : x <= 0 -> math.log x = Raise ValueError.
Proof.
  intros H. unfold math.log. destruct (Rle_dec x 0); [reflexivity | lra].
Qed.

(** With the second latitude at 91 degrees the second Mercator factor is
    the tangent of an angle beyond a right angle: negative, so its
    logarithm raises. *)
Lemma rhumb_midpoint_try_lat_91 :
  Geo.rhumb_midpoint_try 0 0 91 0 = Raise ValueError.
Proof.
  unfold Geo.rhumb_midpoint_try. rewrite radians_0. unfold math.pi.
  replace (PI / 4 + 0 / 2) with (PI / 4) by field.
  rewrite tan_PI4_defined. cbn [bind].
  pose proof PI_RGT_0 as Hpi.
  set (x2 := PI / 4 + math.radians 91 / 2).
  set (x3 := PI / 4 + (math.radians 91 + 0) / 2 / 2).
  assert (B2 : PI / 2 < x2 < PI)
    by (unfold x2, math.radians; split; lra).
  assert (B3 : 0 < x3 < PI / 2)
    by (unfold x3, math.radians; split; lra).
  assert (C2 : cos x2 < 0) by (apply cos_lt_0; lra).
  assert (S2 : 0 < sin x2) by (apply sin_gt_0; lra).
  assert (C3 : 0 < cos x3) by (apply cos_gt_0; lra).
  assert (T3 : 0 < tan x3) by (apply tan_gt_0; lra).
  assert (T2 : tan x2 < 0).
  { unfold tan, Rdiv. pose proof (Rinv_lt_0_compat _ C2). nra. }
  rewrite (math_tan_defined x2) by lra. cbn [bind].
  rewrite (math_tan_defined x3) by lra. cbn [bind].
  rewrite (math_log_pos _ T3). cbn [bind].
  rewrite math_log_nonpos by lra. reflexivity.
Qed.

(** C1 (the code departs from the claim).  [rhumb_midpoint] tests its first
    point only: a second point with latitude 91 raises no
    [LatitudeRangeException], the call comes back with the integer 1, and
    no second point whatever makes the method raise. *)
Theorem rhumb_midpoint_second_point_unchecked :
  Geo.rhumb_midpoint 0 0 91 0 = Return (VInt 1) /\
  (forall lat2 lon2 : R, exists v, Geo.rhumb_midpoint 0 0 lat2 lon2 = Return v).
Proof.
  assert (Hc : Geo.check_one_point 0 0 = Return tt)
    by (apply check_one_point_valid; unfold valid_lat, valid_lon; lra).
  split.
  - unfold Geo.rhumb_midpoint. rewrite Hc. cbn [bind].
    apply try_except_raise with (e := ValueError).
    exact rhumb_midpoint_try_lat_91.
  - intros lat2 lon2. unfold Geo.rhumb_midpoint. rewrite Hc. cbn [bind].
    destruct (try_except_total (Geo.rhumb_midpoint_try 0 0 lat2 lon2)
                (fun p => VPair (math.degrees (fst p)) (math.degrees (snd p))))
      as [H | (a & _ & H)]; rewrite H; eexists; reflexivity.
Qed.

(** ** Normalised longitudes *)

Lemma degrees_half_turn (x : R) :
  - PI <= x < PI -> -180 <= math.degrees x < 180.
Proof.
  intros [H1 H2]. unfold math.degrees.
  pose proof PI_RGT_0 as Hpi.
  assert (Hk : 0 < 180 / PI) by (apply Rdiv_lt_0_compat; lra).
  assert (E : PI * (180 / PI) = 180) by (field; lra).
  split; nra.
Qed.

Lemma normalised_longitude (x : R) :
  -180 <= math.degrees (py_mod x (2 * math.pi) - math.pi) < 180.
Proof.
  unfold math.pi. pose proof PI_RGT_0 as Hpi.
  destruct (py_mod_bound x (2 * PI)) as [H1 H2]; [lra |].
  apply degrees_half_turn. split; lra.
Qed.

Lemma py_mod_two_turns : py_mod (4 * PI) (2 * PI) = 0.
Proof.
  unfold py_mod. pose proof PI_RGT_0 as Hpi.
  replace (4 * PI / (2 * PI)) with 2 by (field; lra).
  rewrite <- (Int_part_spec 2 2) by (split; lra). ring.
Qed.

(** The sine of the destination latitude, and what is left for its cosine:
    a sum of two squares. *)
Lemma destination_sine_identity (s1 c1 sd cd st ct : R) :
  s1 * s1 + c1 * c1 = 1 -> sd * sd + cd * cd = 1 -> st * st + ct * ct = 1 ->
  1 - (s1 * cd + c1 * sd * ct) * (s1 * cd + c1 * sd * ct)
  = (c1 * cd - s1 * sd * ct) * (c1 * cd - s1 * sd * ct)
    + (sd * st) * (sd * st).
Proof.
  intros H1 H2 H3.
  replace (1 - (s1 * cd + c1 * sd * ct) * (s1 * cd + c1 * sd * ct))
    with ((c1 * cd - s1 * sd * ct) * (c1 * cd - s1 * sd * ct)
          + (sd * st) * (sd * st)
          + (1 - (s1 * s1 + c1 * c1) * (cd * cd)
               - (s1 * s1 + c1 * c1) * (sd * sd) * (ct * ct)
               - (sd * sd) * (st * st))) by ring.
  rewrite H1.
  replace (1 - 1 * (cd * cd) - 1 * (sd * sd) * (ct * ct) - sd * sd * (st * st))
    with (1 - (sd * sd + cd * cd) + (sd * sd) * (1 - (st * st + ct * ct)))
    by ring.
  rewrite H2, H3. ring.
Qed.

Lemma destination_sine_bound (p d t : R) :
  -1 <= sin p * cos d + cos p * sin d * cos t <= 1.
Proof.
  pose proof (destination_sine_identity _ _ _ _ _ _
                (sin_cos_sqr p) (sin_cos_sqr d) (sin_cos_sqr t)) as H.
  set (S := sin p * cos d + cos p * sin d * cos t) in *.
  assert (0 <= 1 - S * S)
    by (rewrite H; apply Rplus_le_le_0_compat; apply Rle_0_sqr).
  split; nra.
Qed.

Lemma math_asin_defined (x : R) :
  -1 <= x <= 1 -> math.asin x = Return (asin x).
Proof. intros H. unfold math.asin. decide_cmp. reflexivity. Qed.

Lemma math_acos_defined (x : R) :
  -1 <= x <= 1 -> math.acos x = Return (acos x).
Proof. intros H. unfold math.acos. decide_cmp. reflexivity. Qed.

(** ** Destination points *)

Lemma destination_point_value (lat1 lon1 brng dist : R) :
  valid_lat lat1 -> valid_lon lon1 ->
  Geo.destination_point lat1 lon1 brng dist =
  Return (VPair (math.degrees (destination_lat lat1 brng dist))
                (math.degrees (destination_lon lat1 lon1 brng dist))).
Proof.
  intros Ha Hb. unfold Geo.destination_point.
  rewrite check_one_point_valid by assumption. cbn [bind].
  unfold Geo.destination_point_try.
  rewrite math_asin_defined by apply destination_sine_bound.
  reflexivity.
Qed.

Lemma rhumb_destination_point_try_longitude
    (lat1 lon1 brng dist : R) (p : R * R) :
  Geo.rhumb_destination_point_try lat1 lon1 brng dist = Return p ->
  exists x, snd p = py_mod x (2 * math.pi) - math.pi.
Proof.
  unfold Geo.rhumb_destination_point_try.
  destruct (Geo.rhumb_dPhi _ _) as [dPhi | e]; [| discriminate]. cbn [bind].
  destruct (Geo.rhumb_q _ _ _) as [q | e]; [| discriminate]. cbn [bind].
  destruct (py_div _ _) as [dLon | e]; [| discriminate]. cbn [bind].
  intros H. injection H as <-. eexists. reflexivity.
Qed.

(** C7, as the code has it.  From a valid start point each of
    [destination_point] and [rhumb_destination_point] returns either the
    integer 1 of the handler or a pair whose longitude lies in
    [[-180, 180)]: -180 is reached and 180 is not. *)
Theorem destination_longitude_normalized (lat1 lon1 brng dist : R) :
  valid_lat lat1 -> valid_lon lon1 ->
  (Geo.destination_point lat1 lon1 brng dist = Return (VInt 1) \/
   exists lat2 lon2,
     Geo.destination_point lat1 lon1 brng dist = Return (VPair lat2 lon2) /\
     -180 <= lon2 < 180) /\
  (Geo.rhumb_destination_point lat1 lon1 brng dist = Return (VInt 1) \/
   exists lat2 lon2,
     Geo.rhumb_destination_point lat1 lon1 brng dist
       = Return (VPair lat2 lon2) /\
     -180 <= lon2 < 180).
Proof.
  intros Ha Hb. split.
  - right. do 2 eexists. split.
    + apply destination_point_value; assumption.
    + apply normalised_longitude.
  - unfold Geo.rhumb_destination_point.
    rewrite check_one_point_valid by assumption. cbn [bind].
    destruct (try_except_total
                (Geo.rhumb_destination_point_try lat1 lon1 brng dist)
                (fun p => VPair (math.degrees (fst p)) (math.degrees (snd p))))
      as [H | (p & Hp & H)]; [now left | right].
    rewrite H. do 2 eexists. split; [reflexivity |].
    destruct (rhumb_destination_point_try_longitude _ _ _ _ _ Hp) as [x ->].
    apply normalised_longitude.
Qed.

Lemma destination_longitude_normalized_witness :
  (Geo.destination_point 53 1 96 124 = Return (VInt 1) \/
   exists lat2 lon2,
     Geo.destination_point 53 1 96 124 = Return (VPair lat2 lon2) /\
     -180 <= lon2 < 180) /\
  (Geo.rhumb_destination_point 53 1 96 124 = Return (VInt 1) \/
   exists lat2 lon2,
     Geo.rhumb_destination_point 53 1 96 124 = Return (VPair lat2 lon2) /\
     -180 <= lon2 < 180).
Proof.
  apply (destination_longitude_normalized 53 1 96 124);
    unfold valid_lat, valid_lon; lra.
Defined.

(** C7 fails as stated: standing on the 180 meridian and not moving, the
    destination has longitude -180, outside [(-180, 180]]. *)
Lemma destination_point_minus_180 :
  Geo.destination_point 0 180 0 0 = Return (VPair 0 (-180)) /\
  ~ (-180 < -180 <= 180).
Proof.
  split; [| lra].
  rewrite destination_point_value by (unfold valid_lat, valid_lon; lra).
  assert (Hl : destination_lat 0 0 0 = 0).
  { unfold destination_lat. rewrite !radians_0.
    replace (0 / Geo.R_earth) with 0 by (unfold Geo.R_earth; field).
    rewrite sin_0, cos_0.
    replace (0 * 1 + 1 * 0 * 1) with 0 by ring. apply asin_0. }
  assert (Hd : destination_dlon 0 0 0 = 0).
  { unfold destination_dlon. rewrite Hl, !radians_0.
    replace (0 / Geo.R_earth) with 0 by (unfold Geo.R_earth; field).
    rewrite sin_0, cos_0.
    replace (0 * 0 * 1) with 0 by ring.
    replace (1 - 0 * 0) with 1 by ring. apply atan2_0_1. }
  unfold destination_lon. rewrite Hl, Hd. unfold math.pi.
  pose proof PI_RGT_0 as Hpi.
  replace (math.radians 180 + 0 + 3 * PI) with (4 * PI)
    by (unfold math.radians; field; lra).
  rewrite py_mod_two_turns.
  f_equal. f_equal; unfold math.degrees; field; lra.
Qed.

(** ** The two-argument arctangent *)

Lemma cos_atan2 (y x : R) : sqrt (x * x + y * y) * cos (math.atan2 y x) = x.
Proof.
  unfold math.atan2.
  assert (Hs : forall z, 0 < sqrt (1 + z²)).
  { intros z. apply sqrt_lt_R0. pose proof (Rle_0_sqr z). lra. }
  assert (Hn : x <> 0 ->
               sqrt (x * x + y * y) = Rabs x * sqrt (1 + (y / x)²)).
  { intros Hx. rewrite <- sqrt_Rsqr_abs, <- sqrt_mult.
    - f_equal. unfold Rsqr. field. assumption.
    - apply Rle_0_sqr.
    - pose proof (Rle_0_sqr (y / x)). lra. }
  destruct (Rlt_dec 0 x) as [Hx | Hx].
  - rewrite Hn by lra. rewrite cos_atan, Rabs_pos_eq by lra.
    field. apply Rgt_not_eq, Hs.
  - destruct (Rlt_dec x 0) as [Hx' | Hx'].
    + rewrite Hn by lra. rewrite Rabs_left by lra.
      destruct (Rle_dec 0 y).
      * rewrite neg_cos, cos_atan. field. apply Rgt_not_eq, Hs.
      * replace (atan (y / x) - PI) with (- (- atan (y / x) + PI)) by ring.
        rewrite cos_neg, neg_cos, cos_neg, cos_atan.
        field. apply Rgt_not_eq, Hs.
    + assert (x = 0) by lra. subst x.
      destruct (Rlt_dec 0 y); [rewrite cos_PI2; ring |].
      destruct (Rlt_dec y 0); [rewrite cos_neg, cos_PI2; ring |].
      assert (y = 0) by lra. subst y.
      replace (0 * 0 + 0 * 0) with 0 by ring. rewrite sqrt_0. ring.
Qed.

Lemma atan2_sin_cos (u : R) :
  0 <= u <= PI / 2 -> math.atan2 (sin u) (cos u) = u.
Proof.
  intros [H0 H1]. unfold math.atan2.
  pose proof PI_RGT_0 as Hpi.
  assert (Hc : 0 <= cos u) by (apply cos_ge_0; lra).
  destruct (Rlt_dec 0 (cos u)) as [Hp | Hp].
  - assert (u <> PI / 2) by (intros ->; rewrite cos_PI2 in Hp; lra).
    change (sin u / cos u) with (tan u). apply atan_tan. lra.
  - destruct (Rlt_dec (cos u) 0); [lra |].
    assert (u = PI / 2).
    { destruct (Req_dec_T u (PI / 2)) as [E | E]; [exact E |].
      exfalso. assert (0 < cos u) by (apply cos_gt_0; lra). lra. }
    subst u. rewrite sin_PI2.
    destruct (Rlt_dec 0 1); [reflexivity | lra].
Qed.

Lemma cos_period_Z (x : R) (k : Z) : cos (x + 2 * IZR k * PI) = cos x.
Proof.
  destruct (Z_le_gt_dec 0 k) as [Hk | Hk].
  - rewrite <- (Z2Nat.id k) by assumption.
    rewrite <- INR_IZR_INZ. apply cos_period.
  - rewrite <- (cos_period (x + 2 * IZR k * PI) (Z.to_nat (- k))).
    f_equal. rewrite INR_IZR_INZ, Z2Nat.id by lia. rewrite opp_IZR. ring.
Qed.

Lemma degrees_quarter_turn (x : R) :
  - (PI / 2) <= x <= PI / 2 -> valid_lat (math.degrees x).
Proof.
  intros [H1 H2]. unfold valid_lat, math.degrees.
  pose proof PI_RGT_0 as Hpi.
  assert (Hk : 0 < 180 / PI) by (apply Rdiv_lt_0_compat; lra).
  assert (E : PI * (180 / PI) = 180) by (field; lra).
  split; nra.
Qed.

(** ** Out along a great circle and back *)

Lemma sin_destination_lat (lat1 brng dist : R) :
  sin (destination_lat lat1 brng dist)
  = sin (math.radians lat1) * cos (dist / Geo.R_earth)
    + cos (math.radians lat1) * sin (dist / Geo.R_earth)
      * cos (math.radians brng).
Proof. unfold destination_lat. apply sin_asin, destination_sine_bound. Qed.

(** The cosine rule for the side opposite the pole, read off the
    longitude difference that [destination_point] computes. *)
Lemma destination_cos_dlon (lat1 brng dist : R) :
  valid_lat lat1 ->
  cos (math.radians lat1) * cos (destination_lat lat1 brng dist)
  * cos (destination_dlon lat1 brng dist)
  = cos (dist / Geo.R_earth)
    - sin (math.radians lat1) * sin (destination_lat lat1 brng dist).
Proof.
  intros Hlat.
  pose proof (cos_radians_lat lat1 Hlat) as Hc1.
  pose proof (sin_destination_lat lat1 brng dist) as HS.
  pose proof (destination_sine_bound (math.radians lat1)
                (dist / Geo.R_earth) (math.radians brng)) as HB.
  assert (Hc2 : cos (destination_lat lat1 brng dist)
                = sqrt (1 - sin (destination_lat lat1 brng dist)
                           * sin (destination_lat lat1 brng dist))).
  { rewrite HS. unfold destination_lat. rewrite cos_asin by exact HB.
    reflexivity. }
  unfold destination_dlon.
  set (p2 := destination_lat lat1 brng dist) in *.
  pose proof (destination_sine_identity _ _ _ _ _ _
                (sin_cos_sqr (math.radians lat1))
                (sin_cos_sqr (dist / Geo.R_earth))
                (sin_cos_sqr (math.radians brng))) as HI.
  rewrite <- HS in HI.
  pose proof (sin_cos_sqr (math.radians lat1)) as H1.
  set (s1 := sin (math.radians lat1)) in *.
  set (c1 := cos (math.radians lat1)) in *.
  set (sd := sin (dist / Geo.R_earth)) in *.
  set (cd := cos (dist / Geo.R_earth)) in *.
  set (st := sin (math.radians brng)) in *.
  set (ct := cos (math.radians brng)) in *.
  set (S := sin p2) in *.
  set (x := cd - s1 * S).
  set (y := st * sd * c1).
  assert (Ex : x = c1 * (c1 * cd - s1 * sd * ct)).
  { unfold x. rewrite HS.
    replace (cd - s1 * (s1 * cd + c1 * sd * ct))
      with ((1 - s1 * s1) * cd - s1 * c1 * sd * ct) by ring.
    replace (1 - s1 * s1) with (c1 * c1) by lra. ring. }
  assert (Exy : x * x + y * y = (c1 * c1) * (1 - S * S)).
  { rewrite HI, Ex. unfold y. ring. }
  assert (Hsq : sqrt (x * x + y * y) = c1 * cos p2).
  { rewrite Exy, Hc2. rewrite sqrt_mult.
    - now rewrite sqrt_square.
    - nra.
    - rewrite HI. apply Rplus_le_le_0_compat; apply Rle_0_sqr. }
  rewrite <- Hsq. apply cos_atan2.
Qed.

Lemma haversine_a_destination (lat1 lon1 brng dist : R) :
  valid_lat lat1 ->
  Geo.haversine_a lat1 lon1
    (math.degrees (destination_lat lat1 brng dist))
    (math.degrees (destination_lon lat1 lon1 brng dist))
  = sin (dist / Geo.R_earth / 2) * sin (dist / Geo.R_earth / 2).
Proof.
  intros Hlat. unfold Geo.haversine_a.
  rewrite !radians_minus, !radians_degrees.
  rewrite Rmult_assoc
    with (r1 := cos (math.radians lat1)
                * cos (destination_lat lat1 brng dist)).
  rewrite !sin_half_sqr, cos_minus.
  assert (El : cos (destination_lon lat1 lon1 brng dist - math.radians lon1)
               = cos (destination_dlon lat1 brng dist)).
  { unfold destination_lon.
    destruct (py_mod_shift
                (math.radians lon1 + destination_dlon lat1 brng dist
                 + 3 * math.pi) (2 * math.pi)) as [k ->].
    unfold math.pi.
    rewrite <- (cos_period_Z (destination_dlon lat1 brng dist) (1 - k)).
    f_equal. rewrite minus_IZR. ring. }
  rewrite El.
  pose proof (destination_cos_dlon lat1 brng dist Hlat) as K.
  set (c1 := cos (math.radians lat1)) in *.
  set (c2 := cos (destination_lat lat1 brng dist)) in *.
  set (cl := cos (destination_dlon lat1 brng dist)) in *.
  replace (c1 * c2 * ((1 - cl) / 2)) with ((c1 * c2 - c1 * c2 * cl) / 2)
    by field.
  rewrite K. field.
Qed.

(** Over the reals, where no rounding pushes the argument of the arc sine
    or of a square root out of its domain: from a valid point, for any
    bearing and a distance between 0 and half the circumference,
    [destination_point] returns a pair, and the haversine distance from the
    start to that pair is the distance that went in. *)
Lemma round_trip_exact (lat1 lon1 brng dist : R) :
  valid_lat lat1 -> valid_lon lon1 ->
  0 <= dist <= PI * Geo.R_earth ->
  exists lat2 lon2,
    Geo.destination_point lat1 lon1 brng dist = Return (VPair lat2 lon2) /\
    Geo.distance_haversine lat1 lon1 lat2 lon2 = Return (VFloat dist).
Proof.
  intros Hlat Hlon [Hd0 Hd1].
  exists (math.degrees (destination_lat lat1 brng dist)),
         (math.degrees (destination_lon lat1 lon1 brng dist)).
  split; [now apply destination_point_value |].
  assert (Hlat2 : valid_lat (math.degrees (destination_lat lat1 brng dist)))
    by (apply degrees_quarter_turn, asin_bound).
  assert (Hlon2 : valid_lon (math.degrees (destination_lon lat1 lon1 brng dist))).
  { unfold valid_lon, destination_lon.
    pose proof (normalised_longitude
                  (math.radians lon1 + destination_dlon lat1 brng dist
                   + 3 * math.pi)). lra. }
  rewrite distance_haversine_value by assumption.
  rewrite haversine_a_destination by assumption.
  pose proof PI_RGT_0 as Hpi.
  set (u := dist / Geo.R_earth / 2).
  assert (Hu : 0 <= u <= PI / 2).
  { unfold u, Geo.R_earth in *. split.
    - apply Rmult_le_reg_r with (r := 6371 * 2); [lra |].
      replace (dist / 6371 / 2 * (6371 * 2)) with dist by field. lra.
    - apply Rmult_le_reg_r with (r := 6371 * 2); [lra |].
      replace (dist / 6371 / 2 * (6371 * 2)) with dist by field. lra. }
  assert (Hs : 0 <= sin u) by (apply sin_ge_0; lra).
  assert (Hc : 0 <= cos u) by (apply cos_ge_0; lra).
  replace (1 - sin u * sin u) with (cos u * cos u)
    by (pose proof (sin_cos_sqr u); lra).
  rewrite !sqrt_square by assumption.
  rewrite atan2_sin_cos by exact Hu.
  do 2 f_equal. unfold u, Geo.R_earth. field.
Qed.

(** ** The intersection of two paths *)

Lemma intersection_d_value (lat1 lon1 lat2 lon2 : R) :
  0 <= cos lat1 -> 0 <= cos lat2 ->
  Geo.intersection_d lat1 lon1 lat2 lon2
  = Return (separation lat1 lon1 lat2 lon2).
Proof.
  intros H1 H2. unfold Geo.intersection_d, separation.
  destruct (hav_term_bound lat1 lat2 (lon2 - lon1) H1 H2) as [Ha Hb].
  rewrite math_sqrt_nonneg by exact Ha. cbn [bind].
  rewrite math_asin_defined; [reflexivity |].
  split.
  - pose proof (sqrt_pos (sin ((lat2 - lat1) / 2) * sin ((lat2 - lat1) / 2)
                  + cos lat1 * cos lat2
                    * sin ((lon2 - lon1) / 2) * sin ((lon2 - lon1) / 2))).
    lra.
  - rewrite <- sqrt_1. apply sqrt_le_1_alt. exact Hb.
Qed.

(** What [intersection] does on valid points, branch by branch. *)
Lemma intersection_branches (lat1 lon1 brng1 lat2 lon2 brng2 : R) :
  valid_lat lat1 -> valid_lon lon1 -> valid_lat lat2 -> valid_lon lon2 ->
  let p1 := math.radians lat1 in
  let l1 := math.radians lon1 in
  let p2 := math.radians lat2 in
  let l2 := math.radians lon2 in
  let b1 := math.radians brng1 in
  let b2 := math.radians brng2 in
  let d := separation p1 l1 p2 l2 in
  Geo.intersection lat1 lon1 brng1 lat2 lon2 brng2 =
  if Reqb d 0 then Return (VInt 0)
  else match Geo.intersection_angles p1 l1 b1 p2 l2 b2 d with
       | Raise _ => Return (VInt 1)
       | Return (a1, a2) =>
           if (if Reqb (sin a1) 0 && Reqb (sin a2) 0 then true
               else Rltb (sin a1 * sin a2) 0)
           then Return (VInt 0)
           else match Geo.intersection_point p1 l1 b1 d a1 a2 with
                | Raise _ => Return (VInt 1)
                | Return (lat3, lon3) =>
                    Return (VPair (math.degrees lat3) (math.degrees lon3))
                end
       end.
Proof.
  intros Ha Hb Hc Hd p1 l1 p2 l2 b1 b2 d.
  unfold Geo.intersection.
  rewrite check_two_points_valid by assumption. cbn [bind].
  unfold Geo.intersection_try. fold p1 l1 p2 l2 b1 b2.
  rewrite intersection_d_value by (now apply cos_radians_lat).
  cbn [bind]. fold d.
  destruct (Reqb d 0); [reflexivity |].
  destruct (Geo.intersection_angles p1 l1 b1 p2 l2 b2 d) as [[a1 a2] | e];
    [| reflexivity].
  cbn [bind fst snd].
  destruct (Reqb (sin a1) 0 && Reqb (sin a2) 0); [reflexivity |].
  destruct (Rltb (sin a1 * sin a2) 0); [reflexivity |].
  destruct (Geo.intersection_point p1 l1 b1 d a1 a2) as [[lat3 lon3] | e];
    reflexivity.
Qed.

Lemma radians_90 : math.radians 90 = PI / 2.
Proof. unfold math.radians. field. Qed.

(** From the north pole to a point on the equator the separation is a
    quarter turn, not 0. *)
Lemma separation_pole_equator :
  separation (math.radians 90) (math.radians 0)
             (math.radians 0) (math.radians 0) <> 0.
Proof.
  unfold separation. rewrite radians_0, radians_90, cos_PI2.
  replace ((0 - PI / 2) / 2) with (- (PI / 4)) by field.
  rewrite sin_neg, sin_PI4.
  assert (H2 : 0 < sqrt 2) by (apply sqrt_lt_R0; lra).
  assert (Hh : - (1 / sqrt 2) * - (1 / sqrt 2)
               + 0 * cos 0 * sin ((0 - 0) / 2) * sin ((0 - 0) / 2) = 1 / 2).
  { replace (- (1 / sqrt 2) * - (1 / sqrt 2)
             + 0 * cos 0 * sin ((0 - 0) / 2) * sin ((0 - 0) / 2))
      with (1 / (sqrt 2 * sqrt 2)) by (field; lra).
    rewrite sqrt_sqrt by lra. reflexivity. }
  rewrite Hh.
  assert (Hs : 0 < sqrt (1 / 2)) by (apply sqrt_lt_R0; lra).
  assert (Hs1 : sqrt (1 / 2) <= 1).
  { apply Rle_trans with (sqrt 1); [apply sqrt_le_1_alt; lra |].
    rewrite sqrt_1. lra. }
  intros H.
  assert (E : asin (sqrt (1 / 2)) = 0) by lra.
  pose proof (sin_asin (sqrt (1 / 2)) ltac:(lra)) as Hsin.
  rewrite E, sin_0 in Hsin. lra.
Qed.

(** C3 (the code departs from the claim).  With the first point at the
    north pole the separation is not 0 and the quotient behind the first
    course angle cannot be taken: over the reals it is a division by
    [sin d * cos lat1 = 0], in floating point its value lies outside the
    domain of [math.acos].  Either way an exception is raised before the
    test [math.isnan(f1)] that was to protect that step, and the method
    returns the integer 1: neither the sentinel 0 nor a pair. *)
Theorem intersection_from_pole :
  Geo.intersection 90 0 0 0 0 0 = Return (VInt 1) /\
  Geo.intersection 90 0 0 0 0 0 <> Return (VInt 0) /\
  ~ (exists lat3 lon3, Geo.intersection 90 0 0 0 0 0 = Return (VPair lat3 lon3)).
Proof.
  assert (E : Geo.intersection 90 0 0 0 0 0 = Return (VInt 1)).
  { rewrite intersection_branches by (unfold valid_lat, valid_lon; lra).
    cbv zeta. unfold Reqb at 1.
    destruct (Req_dec_T _ 0) as [H | _];
      [exfalso; exact (separation_pole_equator H) |].
    unfold Geo.intersection_angles, py_div at 1.
    replace (cos (math.radians 90)) with 0
      by (rewrite radians_90; symmetry; apply cos_PI2).
    rewrite Rmult_0_r.
    destruct (Req_dec_T 0 0) as [_ | H]; [reflexivity | now elim H]. }
  rewrite E. repeat split; [discriminate |].
  intros (lat3 & lon3 & H). discriminate.
Qed.

(** ** What a call on valid coordinates hands back *)

Lemma sloc_argument_bound (p1 p2 l : R) :
  0 <= cos p1 -> 0 <= cos p2 ->
  -1 <= sin p1 * sin p2 + cos p1 * cos p2 * cos l <= 1.
Proof.
  intros H1 H2.
  pose proof (COS_bound l) as [Hl1 Hl2].
  pose proof (COS_bound (p1 - p2)) as [_ Hm].
  pose proof (COS_bound (p1 + p2)) as [_ Hp].
  rewrite cos_minus in Hm. rewrite cos_plus in Hp.
  assert (H0 : 0 <= cos p1 * cos p2) by (now apply Rmult_le_pos).
  set (c := cos p1 * cos p2) in *.
  assert (c * cos l <= c) by nra.
  assert (- c <= c * cos l) by nra.
  split; lra.
Qed.

Lemma distance_sloc_value (lat1 lon1 lat2 lon2 : R) :
  valid_lat lat1 -> valid_lon lon1 -> valid_lat lat2 -> valid_lon lon2 ->
  exists c, Geo.distance_sloc lat1 lon1 lat2 lon2
            = Return (VFloat (Geo.R_earth * c)).
Proof.
  intros Ha Hb Hc Hd. unfold Geo.distance_sloc.
  rewrite check_two_points_valid by assumption. cbn [bind].
  unfold Geo.distance_sloc_try.
  rewrite math_acos_defined
    by (apply sloc_argument_bound; now apply cos_radians_lat).
  eexists. reflexivity.
Qed.

Lemma midpoint_value (lat1 lon1 lat2 lon2 : R) :
  valid_lat lat1 -> valid_lon lon1 -> valid_lat lat2 -> valid_lon lon2 ->
  exists lat3 lon3,
    Geo.midpoint lat1 lon1 lat2 lon2
    = Return (VPair (py_round2 (math.degrees lat3))
                    (py_round2 (math.degrees lon3))).
Proof.
  intros Ha Hb Hc Hd. unfold Geo.midpoint.
  rewrite check_two_points_valid by assumption. cbn [bind].
  unfold Geo.midpoint_try.
  rewrite math_sqrt_nonneg
    by (apply Rplus_le_le_0_compat; apply Rle_0_sqr).
  do 2 eexists. reflexivity.
Qed.

Lemma intersection_shape (lat1 lon1 brng1 lat2 lon2 brng2 : R) :
  valid_lat lat1 -> valid_lon lon1 -> valid_lat lat2 -> valid_lon lon2 ->
  Geo.intersection lat1 lon1 brng1 lat2 lon2 brng2 = Return (VInt 0) \/
  Geo.intersection lat1 lon1 brng1 lat2 lon2 brng2 = Return (VInt 1) \/
  exists lat3 lon3,
    Geo.intersection lat1 lon1 brng1 lat2 lon2 brng2
    = Return (VPair lat3 lon3).
Proof.
  intros Ha Hb Hc Hd.
  rewrite intersection_branches by assumption. cbv zeta.
  destruct (Reqb _ 0); [now left |].
  destruct (Geo.intersection_angles _ _ _ _ _ _ _) as [[a1 a2] | e];
    [| right; now left].
  destruct (if Reqb (sin a1) 0 && Reqb (sin a2) 0 then true
            else Rltb (sin a1 * sin a2) 0); [now left |].
  destruct (Geo.intersection_point _ _ _ _ _ _) as [[lat3 lon3] | e];
    right; [right; do 2 eexists; reflexivity | now left].
Qed.

Ltac handler_or_value :=
  match goal with
  | |- try_except (falls_through ?m) ?k = _ \/ _ =>
      destruct (try_except_total m k) as [H | (a & _ & H)]; rewrite H;
      [left; reflexivity | right; repeat eexists]
  end.

(** C2, as the code has it.  On valid coordinates no method raises, and
    what comes back is the float or the pair of the formula, the sentinel 0
    of [intersection], or the integer 1 that the handler puts in place of
    a math exception. *)
Theorem valid_calls_return (lat1 lon1 lat2 lon2 brng1 brng2 dist : R) :
  valid_lat lat1 -> valid_lon lon1 -> valid_lat lat2 -> valid_lon lon2 ->
  float_or_one (Geo.distance_haversine lat1 lon1 lat2 lon2) /\
  float_or_one (Geo.distance_sloc lat1 lon1 lat2 lon2) /\
  (exists b, Geo.initial_bearing lat1 lon1 lat2 lon2 = Return (VFloat b)) /\
  (exists b, Geo.final_bearing lat1 lon1 lat2 lon2 = Return (VFloat b)) /\
  pair_or_one (Geo.midpoint lat1 lon1 lat2 lon2) /\
  (Geo.intersection lat1 lon1 brng1 lat2 lon2 brng2 = Return (VInt 0) \/
   pair_or_one (Geo.intersection lat1 lon1 brng1 lat2 lon2 brng2)) /\
  float_or_one (Geo.rhumb_distance lat1 lon1 lat2 lon2) /\
  float_or_one (Geo.rhumb_bearing lat1 lon1 lat2 lon2) /\
  pair_or_one (Geo.rhumb_destination_point lat1 lon1 brng1 dist) /\
  pair_or_one (Geo.rhumb_midpoint lat1 lon1 lat2 lon2) /\
  pair_or_one (Geo.destination_point lat1 lon1 brng1 dist).
Proof.
  intros Ha Hb Hc Hd.
  split; [right; eexists; now apply distance_haversine_value |].
  split.
  { destruct (distance_sloc_value lat1 lon1 lat2 lon2 Ha Hb Hc Hd) as [c H].
    right. eexists. exact H. }
  split.
  { eexists. unfold Geo.initial_bearing.
    rewrite check_two_points_valid by assumption. reflexivity. }
  split.
  { eexists. unfold Geo.final_bearing.
    rewrite check_two_points_valid by assumption. reflexivity. }
  split.
  { destruct (midpoint_value lat1 lon1 lat2 lon2 Ha Hb Hc Hd)
      as (a & b & H). right. do 2 eexists. exact H. }
  split.
  { destruct (intersection_shape lat1 lon1 brng1 lat2 lon2 brng2 Ha Hb Hc Hd)
      as [H | [H | H]]; [now left | right; now left | right; now right]. }
  unfold float_or_one, pair_or_one.
  unfold Geo.rhumb_distance, Geo.rhumb_bearing, Geo.rhumb_destination_point,
    Geo.rhumb_midpoint.
  rewrite !check_two_points_valid, !check_one_point_valid by assumption.
  cbn [bind].
  split; [handler_or_value |].
  split; [handler_or_value |].
  split; [handler_or_value |].
  split; [handler_or_value |].
  right. do 2 eexists. now apply destination_point_value.
Qed.

Lemma valid_calls_return_witness :
  float_or_one (Geo.distance_haversine 53 21 54 18) /\
  float_or_one (Geo.rhumb_distance 53 21 54 18).
Proof.
  destruct (valid_calls_return 53 21 54 18 0 0 0)
    as (H1 & _ & _ & _ & _ & _ & H7 & _);
    try (unfold valid_lat, valid_lon; lra).
  split; assumption.
Defined.

(** C2 fails as stated: the rhumb bearing from the south pole divides by
    [tan 0 = 0]; no guard stands before that division, and the exception
    comes out as the integer 1 where the bearing, a float, was due. *)
Lemma rhumb_bearing_south_pole_fallback :
  Geo.rhumb_bearing_try (-90) 0 0 0 = Raise ZeroDivisionError /\
  Geo.rhumb_bearing (-90) 0 0 0 = Return (VInt 1) /\
  ~ (exists b, Geo.rhumb_bearing (-90) 0 0 0 = Return (VFloat b)).
Proof.
  assert (T : Geo.rhumb_bearing_try (-90) 0 0 0 = Raise ZeroDivisionError).
  { unfold Geo.rhumb_bearing_try, Geo.rhumb_dPhi.
    rewrite radians_0. unfold math.pi.
    replace (0 / 2 + PI / 4) with (PI / 4) by field.
    replace (math.radians (-90) / 2 + PI / 4) with 0
      by (unfold math.radians; field).
    rewrite tan_PI4_defined. cbn [bind].
    rewrite math_tan_defined by (rewrite cos_0; lra). cbn [bind].
    rewrite tan_0. unfold py_div.
    destruct (Req_dec_T 0 0) as [_ | H]; [reflexivity | now elim H]. }
  assert (E : Geo.rhumb_bearing (-90) 0 0 0 = Return (VInt 1)).
  { unfold Geo.rhumb_bearing.
    rewrite check_two_points_valid by (unfold valid_lat, valid_lon; lra).
    cbn [bind]. now apply try_except_raise with (e := ZeroDivisionError). }
  split; [exact T |].
  split; [exact E |].
  rewrite E. intros [b H]. discriminate.
Qed.

(** * Further properties of the formulas *)

(** ** Range errors *)

Lemma check_one_point_latitude (lat1 lon1 : R) :
  ~ valid_lat lat1 ->
  Geo.check_one_point lat1 lon1 = Raise LatitudeRangeException.
Proof.
  unfold valid_lat, Geo.check_one_point, Rgtb, Rltb. intros H.
  destruct (Rgt_dec lat1 90), (Rlt_dec lat1 (-90)); cbn; try reflexivity.
  exfalso. apply H. lra.
Qed.

Lemma check_one_point_longitude (lat1 lon1 : R) :
  valid_lat lat1 -> ~ valid_lon lon1 ->
  Geo.check_one_point lat1 lon1 = Raise LongitudeRangeException.
Proof.
  unfold valid_lat, valid_lon, Geo.check_one_point, Rgtb, Rltb. intros H1 H.
  destruct (Rgt_dec lat1 90), (Rlt_dec lat1 (-90)); try lra. cbn.
  destruct (Rgt_dec lon1 180), (Rlt_dec lon1 (-180)); cbn; try reflexivity.
  exfalso. apply H. lra.
Qed.

(** X1. A latitude out of range in either point makes each of the eight
    methods that test both points raise [LatitudeRangeException], whatever
    the longitudes and bearings are: the latitude test comes first. *)
Theorem latitude_error_two_points (lat1 lon1 lat2 lon2 brng1 brng2 : R) :
  ~ valid_lat lat1 \/ ~ valid_lat lat2 ->
  Geo.distance_haversine lat1 lon1 lat2 lon2 = Raise LatitudeRangeException /\
  Geo.distance_sloc lat1 lon1 lat2 lon2 = Raise LatitudeRangeException /\
  Geo.initial_bearing lat1 lon1 lat2 lon2 = Raise LatitudeRangeException /\
  Geo.final_bearing lat1 lon1 lat2 lon2 = Raise LatitudeRangeException /\
  Geo.midpoint lat1 lon1 lat2 lon2 = Raise LatitudeRangeException /\
  Geo.intersection lat1 lon1 brng1 lat2 lon2 brng2
    = Raise LatitudeRangeException /\
  Geo.rhumb_distance lat1 lon1 lat2 lon2 = Raise LatitudeRangeException /\
  Geo.rhumb_bearing lat1 lon1 lat2 lon2 = Raise LatitudeRangeException.
Proof.
  intros H. apply two_point_methods_checked.
  now apply check_two_points_latitude.
Qed.

Lemma latitude_error_two_points_witness :
  Geo.distance_haversine 10 200 (-91) 0 = Raise LatitudeRangeException.
Proof.
  apply (latitude_error_two_points 10 200 (-91) 0 0 0).
  right. unfold valid_lat. lra.
Defined.

(** X2. With both latitudes in range, a longitude out of range in either
    point makes each of the same eight methods raise
    [LongitudeRangeException]. *)
Theorem longitude_error_two_points (lat1 lon1 lat2 lon2 brng1 brng2 : R) :
  valid_lat lat1 -> valid_lat lat2 ->
  ~ valid_lon lon1 \/ ~ valid_lon lon2 ->
  Geo.distance_haversine lat1 lon1 lat2 lon2 = Raise LongitudeRangeException /\
  Geo.distance_sloc lat1 lon1 lat2 lon2 = Raise LongitudeRangeException /\
  Geo.initial_bearing lat1 lon1 lat2 lon2 = Raise LongitudeRangeException /\
  Geo.final_bearing lat1 lon1 lat2 lon2 = Raise LongitudeRangeException /\
  Geo.midpoint lat1 lon1 lat2 lon2 = Raise LongitudeRangeException /\
  Geo.intersection lat1 lon1 brng1 lat2 lon2 brng2
    = Raise LongitudeRangeException /\
  Geo.rhumb_distance lat1 lon1 lat2 lon2 = Raise LongitudeRangeException /\
  Geo.rhumb_bearing lat1 lon1 lat2 lon2 = Raise LongitudeRangeException.
Proof.
  intros H1 H2 H. apply two_point_methods_checked.
  now apply check_two_points_longitude.
Qed.

Lemma longitude_error_two_points_witness :
  Geo.rhumb_bearing 10 20 30 181 = Raise LongitudeRangeException.
Proof.
  apply (longitude_error_two_points 10 20 30 181 0 0);
    unfold valid_lat, valid_lon; lra.
Defined.

(** X3. The three methods that test one point raise for its latitude, and
    with the latitude in range for its longitude; the remaining arguments
    (bearing and distance, or the second point of [rhumb_midpoint]) play no
    part. *)
Theorem range_error_one_point (lat1 lon1 x y : R) :
  (~ valid_lat lat1 ->
   Geo.destination_point lat1 lon1 x y = Raise LatitudeRangeException /\
   Geo.rhumb_destination_point lat1 lon1 x y = Raise LatitudeRangeException /\
   Geo.rhumb_midpoint lat1 lon1 x y = Raise LatitudeRangeException) /\
  (valid_lat lat1 -> ~ valid_lon lon1 ->
   Geo.destination_point lat1 lon1 x y = Raise LongitudeRangeException /\
   Geo.rhumb_destination_point lat1 lon1 x y = Raise LongitudeRangeException /\
   Geo.rhumb_midpoint lat1 lon1 x y = Raise LongitudeRangeException).
Proof.
  unfold Geo.destination_point, Geo.rhumb_destination_point,
    Geo.rhumb_midpoint.
  split.
  - intros H. rewrite check_one_point_latitude by assumption.
    repeat split.
  - intros H1 H2. rewrite check_one_point_longitude by assumption.
    repeat split.
Qed.

Lemma range_error_one_point_witness :
  Geo.destination_point 91 0 45 100 = Raise LatitudeRangeException /\
  Geo.rhumb_midpoint 10 (-181) 20 30 = Raise LongitudeRangeException.
Proof.
  split.
  - apply (range_error_one_point 91 0 45 100). unfold valid_lat. lra.
  - apply (range_error_one_point 10 (-181) 20 30);
      unfold valid_lat, valid_lon; lra.
Defined.

(** ** The remainder and the arctangent, once more *)

Lemma py_mod_unique (x y r : R) (k : Z) :
  0 < y -> 0 <= r < y -> x = r + y * IZR k -> py_mod x y = r.
Proof.
  intros Hy [Hr0 Hr1] Hx. unfold py_mod.
  assert (Hq : x / y = r / y + IZR k) by (rewrite Hx; field; lra).
  assert (H0 : 0 <= r / y).
  { apply Rmult_le_reg_r with (r := y); [lra |].
    replace (r / y * y) with r by (field; lra). lra. }
  assert (H1 : r / y < 1).
  { apply Rmult_lt_reg_r with (r := y); [lra |].
    replace (r / y * y) with r by (field; lra). lra. }
  rewrite <- (Int_part_spec (x / y) k) by (rewrite Hq; split; lra).
  rewrite Hx. ring.
Qed.

Lemma degrees_0 : math.degrees 0 = 0.
Proof. unfold math.degrees. ring. Qed.

Lemma degrees_radians (x : R) : math.degrees (math.radians x) = x.
Proof. unfold math.radians, math.degrees. field. apply PI_neq0. Qed.

Lemma degrees_plus (x y : R) :
  math.degrees (x + y) = math.degrees x + math.degrees y.
Proof. unfold math.degrees. ring. Qed.

Lemma degrees_PI2 : math.degrees (PI / 2) = 90.
Proof. unfold math.degrees. field. apply PI_neq0. Qed.

Lemma degrees_PI : math.degrees PI = 180.
Proof. unfold math.degrees. field. apply PI_neq0. Qed.

Lemma atan2_zero_nonneg (x : R) : 0 <= x -> math.atan2 0 x = 0.
Proof.
  intros H. unfold math.atan2.
  destruct (Rlt_dec 0 x).
  - replace (0 / x) with 0 by (field; lra). apply atan_0.
  - destruct (Rlt_dec x 0); [lra |].
    destruct (Rlt_dec 0 0); [lra | reflexivity].
Qed.

Lemma atan2_zero_neg (x : R) : x < 0 -> math.atan2 0 x = PI.
Proof.
  intros H. unfold math.atan2.
  destruct (Rlt_dec 0 x); [lra |].
  destruct (Rlt_dec x 0); [| lra].
  destruct (Rle_dec 0 0); [| lra].
  replace (0 / x) with 0 by (field; lra). rewrite atan_0. ring.
Qed.

Lemma atan2_pos_zero (y : R) : 0 < y -> math.atan2 y 0 = PI / 2.
Proof.
  intros H. unfold math.atan2.
  destruct (Rlt_dec 0 0); [lra |].
  destruct (Rlt_dec 0 y); [reflexivity | lra].
Qed.

Lemma atan2_neg_zero (y : R) : y < 0 -> math.atan2 y 0 = - (PI / 2).
Proof.
  intros H. unfold math.atan2.
  destruct (Rlt_dec 0 0); [lra |].
  destruct (Rlt_dec 0 y); [lra |].
  destruct (Rlt_dec y 0); [reflexivity | lra].
Qed.

(** In the right half-plane the angle lies between the two quarter
    turns, and in the first quadrant it is not negative. *)
Lemma atan2_right_half (y x : R) :
  0 <= x -> - (PI / 2) <= math.atan2 y x <= PI / 2.
Proof.
  intros H. unfold math.atan2. pose proof PI_RGT_0 as Hpi.
  destruct (Rlt_dec 0 x).
  - pose proof (atan_bound (y / x)). lra.
  - destruct (Rlt_dec x 0); [lra |].
    destruct (Rlt_dec 0 y); [lra |].
    destruct (Rlt_dec y 0); lra.
Qed.

Lemma atan2_first_quadrant (y x : R) :
  0 <= y -> 0 <= x -> 0 <= math.atan2 y x <= PI / 2.
Proof.
  intros Hy Hx. split; [| now apply atan2_right_half].
  unfold math.atan2. pose proof PI_RGT_0 as Hpi.
  destruct (Rlt_dec 0 x).
  - destruct (Req_dec_T y 0) as [-> | Hn].
    + replace (0 / x) with 0 by (field; lra). rewrite atan_0. lra.
    + assert (0 < y / x) by (apply Rdiv_lt_0_compat; lra).
      pose proof (atan_increasing 0 (y / x) ltac:(lra)) as Hi.
      rewrite atan_0 in Hi. lra.
  - destruct (Rlt_dec x 0); [lra |].
    destruct (Rlt_dec 0 y); [lra |].
    destruct (Rlt_dec y 0); lra.
Qed.

(** ** Great-circle distances *)

(** X4. On valid points [distance_haversine] returns the integer 1 of the
    handler or a float between 0 and half the circumference of the
    sphere. *)
Theorem distance_haversine_range (lat1 lon1 lat2 lon2 : R) :
  valid_lat lat1 -> valid_lon lon1 -> valid_lat lat2 -> valid_lon lon2 ->
  Geo.distance_haversine lat1 lon1 lat2 lon2 = Return (VInt 1) \/
  exists d,
    Geo.distance_haversine lat1 lon1 lat2 lon2 = Return (VFloat d) /\
    0 <= d <= PI * Geo.R_earth.
Proof.
  intros Ha Hb Hc Hd. right. eexists. split.
  - now apply distance_haversine_value.
  - pose proof (atan2_first_quadrant
                  (sqrt (Geo.haversine_a lat1 lon1 lat2 lon2))
                  (sqrt (1 - Geo.haversine_a lat1 lon1 lat2 lon2))
                  (sqrt_pos _) (sqrt_pos _)) as [H0 H1].
    unfold Geo.R_earth. split; nra.
Qed.

Lemma distance_haversine_range_witness :
  Geo.distance_haversine 53 21 54 18 = Return (VInt 1) \/
  exists d,
    Geo.distance_haversine 53 21 54 18 = Return (VFloat d) /\
    0 <= d <= PI * Geo.R_earth.
Proof.
  apply (distance_haversine_range 53 21 54 18);
    unfold valid_lat, valid_lon; lra.
Defined.

(** X6. [distance_sloc] does not depend on the order of its two points. *)
Theorem distance_sloc_symmetric (lat1 lon1 lat2 lon2 : R) :
  Geo.distance_sloc lat1 lon1 lat2 lon2
  = Geo.distance_sloc lat2 lon2 lat1 lon1.
Proof.
  unfold Geo.distance_sloc.
  assert (Hc : Geo.check_two_points lat1 lon1 lat2 lon2
               = Geo.check_two_points lat2 lon2 lat1 lon1).
  { unfold Geo.check_two_points.
    rewrite (orb_comm (Rgtb lat1 90 || Rltb lat1 (-90))).
    rewrite (orb_comm (Rgtb lon1 180 || Rltb lon1 (-180))). reflexivity. }
  rewrite Hc.
  destruct (Geo.check_two_points lat2 lon2 lat1 lon1); [| reflexivity].
  cbn [bind]. unfold Geo.distance_sloc_try.
  replace (math.radians (lon1 - lon2)) with (- math.radians (lon2 - lon1))
    by (unfold math.radians; ring).
  rewrite cos_neg.
  rewrite (Rmult_comm (sin (math.radians lat2))),
          (Rmult_comm (cos (math.radians lat2))).
  reflexivity.
Qed.

(** ** Bearings along a great circle *)

(** X7. The final bearing is the initial bearing turned by half a turn:
    180 more when the initial bearing is below 180, 180 less otherwise. *)
Theorem final_bearing_half_turn (lat1 lon1 lat2 lon2 : R) :
  valid_lat lat1 -> valid_lon lon1 -> valid_lat lat2 -> valid_lon lon2 ->
  exists i f,
    Geo.initial_bearing lat1 lon1 lat2 lon2 = Return (VFloat i) /\
    Geo.final_bearing lat1 lon1 lat2 lon2 = Return (VFloat f) /\
    ((i < 180 /\ f = i + 180) \/ (180 <= i /\ f = i - 180)).
Proof.
  intros Ha Hb Hc Hd.
  unfold Geo.initial_bearing, Geo.final_bearing.
  rewrite check_two_points_valid by assumption. cbn [bind].
  destruct (Geo.bearing_try lat1 lon1 lat2 lon2) as [brng | e] eqn:E;
    [| discriminate E].
  cbn. set (deg := math.degrees brng).
  do 2 eexists. split; [reflexivity |]. split; [reflexivity |].
  destruct (py_mod_bound (deg + 360) 360 ltac:(lra)) as [H0 H1].
  destruct (py_mod_shift (deg + 360) 360) as [k Hk].
  set (i := py_mod (deg + 360) 360) in *.
  destruct (Rlt_dec i 180) as [Hi | Hi].
  - left. split; [exact Hi |].
    apply py_mod_unique with (k := (k - 1)%Z); [lra | lra |].
    rewrite minus_IZR. lra.
  - right. split; [lra |].
    apply py_mod_unique with (k := k); lra.
Qed.

Lemma final_bearing_half_turn_witness :
  exists i f,
    Geo.initial_bearing 50 5 58 3 = Return (VFloat i) /\
    Geo.final_bearing 50 5 58 3 = Return (VFloat f) /\
    ((i < 180 /\ f = i + 180) \/ (180 <= i /\ f = i - 180)).
Proof.
  apply (final_bearing_half_turn 50 5 58 3); unfold valid_lat, valid_lon; lra.
Defined.

Lemma py_mod_360_0 : py_mod (0 + 360) 360 = 0.
Proof. apply py_mod_unique with (k := 1%Z); lra. Qed.

Lemma py_mod_360_180 : py_mod (0 + 180) 360 = 180.
Proof. apply py_mod_unique with (k := 0%Z); lra. Qed.

Lemma py_mod_540 : py_mod (180 + 360) 360 = 180.
Proof. apply py_mod_unique with (k := 1%Z); lra. Qed.

Lemma py_mod_360_360 : py_mod (180 + 180) 360 = 0.
Proof. apply py_mod_unique with (k := 1%Z); lra. Qed.

(** On one meridian the angle of the bearing is the atan2 of 0 and the
    sine of the difference of the latitudes. *)
Lemma bearing_try_meridian (lat1 lat2 lon : R) :
  Geo.bearing_try lat1 lon lat2 lon
  = Return (math.atan2 0 (sin (math.radians lat2 - math.radians lat1))).
Proof.
  unfold Geo.bearing_try. rewrite Rminus_diag, sin_0, cos_0, sin_minus.
  do 2 f_equal; ring.
Qed.

(** X8. From a valid point to itself the initial bearing is 0 and the
    final bearing 180. *)
Theorem bearing_to_itself (lat lon : R) :
  valid_lat lat -> valid_lon lon ->
  Geo.initial_bearing lat lon lat lon = Return (VFloat 0) /\
  Geo.final_bearing lat lon lat lon = Return (VFloat 180).
Proof.
  intros Ha Hb. unfold Geo.initial_bearing, Geo.final_bearing.
  rewrite check_two_points_valid by assumption. cbn [bind].
  rewrite bearing_try_meridian, Rminus_diag, sin_0.
  rewrite atan2_zero_nonneg by lra. cbn.
  rewrite degrees_0, py_mod_360_0, py_mod_360_180. split; reflexivity.
Qed.

Lemma bearing_to_itself_witness :
  Geo.initial_bearing 50 5 50 5 = Return (VFloat 0) /\
  Geo.final_bearing 50 5 50 5 = Return (VFloat 180).
Proof.
  apply (bearing_to_itself 50 5); unfold valid_lat, valid_lon; lra.
Defined.

(** Over the reals.  Along a meridian: towards a higher latitude the
    initial bearing is 0 and the final bearing 180; towards a lower
    latitude, the two points not being the two poles, 180 and 0. *)
Lemma bearing_along_meridian_exact (lat1 lat2 lon : R) :
  valid_lat lat1 -> valid_lat lat2 -> valid_lon lon ->
  (lat1 < lat2 ->
   Geo.initial_bearing lat1 lon lat2 lon = Return (VFloat 0) /\
   Geo.final_bearing lat1 lon lat2 lon = Return (VFloat 180)) /\
  (lat2 < lat1 -> lat1 - lat2 < 180 ->
   Geo.initial_bearing lat1 lon lat2 lon = Return (VFloat 180) /\
   Geo.final_bearing lat1 lon lat2 lon = Return (VFloat 0)).
Proof.
  intros Ha Hc Hb. unfold Geo.initial_bearing, Geo.final_bearing.
  rewrite check_two_points_valid by assumption. cbn [bind].
  rewrite bearing_try_meridian.
  pose proof PI_RGT_0 as Hpi.
  destruct (radians_lat_bound lat1 Ha) as [A1 A2].
  destruct (radians_lat_bound lat2 Hc) as [B1 B2].
  split.
  - intros Hlt.
    assert (0 <= math.radians lat2 - math.radians lat1)
      by (unfold math.radians; nra).
    assert (0 <= sin (math.radians lat2 - math.radians lat1))
      by (apply sin_ge_0; lra).
    rewrite atan2_zero_nonneg by assumption. cbn.
    rewrite degrees_0, py_mod_360_0, py_mod_360_180. split; reflexivity.
  - intros Hlt Hnp.
    assert (math.radians lat2 - math.radians lat1 < 0)
      by (unfold math.radians; nra).
    assert (- PI < math.radians lat2 - math.radians lat1)
      by (unfold math.radians; nra).
    assert (sin (math.radians lat2 - math.radians lat1) < 0)
      by (apply sin_lt_0_var; lra).
    rewrite atan2_zero_neg by assumption. cbn.
    rewrite degrees_PI, py_mod_540, py_mod_360_360. split; reflexivity.
Qed.

(** X9. Along a meridian, between two valid points whose latitudes are at
    least 1 and at most 179 degrees apart: towards the higher latitude the
    initial bearing is 0 (north) and the final bearing 180, towards the
    lower latitude the initial bearing is 180 and the final bearing 0. *)
Theorem bearing_along_meridian (lat1 lat2 lon : R) :
  valid_lat lat1 -> valid_lat lat2 -> valid_lon lon ->
  (1 <= lat2 - lat1 <= 179 ->
   Geo.initial_bearing lat1 lon lat2 lon = Return (VFloat 0) /\
   Geo.final_bearing lat1 lon lat2 lon = Return (VFloat 180)) /\
  (1 <= lat1 - lat2 <= 179 ->
   Geo.initial_bearing lat1 lon lat2 lon = Return (VFloat 180) /\
   Geo.final_bearing lat1 lon lat2 lon = Return (VFloat 0)).
Proof.
  intros Ha Hc Hb.
  destruct (bearing_along_meridian_exact lat1 lat2 lon Ha Hc Hb) as [Hn Hs].
  split; intros H; [apply Hn | apply Hs]; lra.
Qed.

Lemma bearing_along_meridian_witness :
  (Geo.initial_bearing 10 5 20 5 = Return (VFloat 0) /\
   Geo.final_bearing 10 5 20 5 = Return (VFloat 180)) /\
  (Geo.initial_bearing 20 5 10 5 = Return (VFloat 180) /\
   Geo.final_bearing 20 5 10 5 = Return (VFloat 0)).
Proof.
  split.
  - apply (bearing_along_meridian 10 20 5); unfold valid_lat, valid_lon; lra.
  - apply (bearing_along_meridian 20 10 5); unfold valid_lat, valid_lon; lra.
Defined.

(** ** The great-circle midpoint *)

Lemma atan2_scaled (k u : R) :
  0 < k -> - (PI / 2) <= u <= PI / 2 ->
  math.atan2 (k * sin u) (k * cos u) = u.
Proof.
  intros Hk [H0 H1]. unfold math.atan2. pose proof PI_RGT_0 as Hpi.
  assert (Hc : 0 <= cos u) by (apply cos_ge_0; lra).
  destruct (Rlt_dec 0 (k * cos u)) as [Hp | Hp].
  - assert (Hc' : 0 < cos u) by nra.
    assert (u <> PI / 2) by (intros ->; rewrite cos_PI2 in Hc'; lra).
    assert (u <> - (PI / 2))
      by (intros ->; rewrite cos_neg, cos_PI2 in Hc'; lra).
    replace (k * sin u / (k * cos u)) with (tan u)
      by (unfold tan; field; split; lra).
    apply atan_tan. lra.
  - destruct (Rlt_dec (k * cos u) 0); [nra |].
    assert (Hz : cos u = 0) by nra.
    destruct (Req_dec_T u (PI / 2)) as [-> | Hn].
    + rewrite sin_PI2. destruct (Rlt_dec 0 (k * 1)); [reflexivity | lra].
    + destruct (Req_dec_T u (- (PI / 2))) as [-> | Hn'].
      * rewrite sin_neg, sin_PI2.
        destruct (Rlt_dec 0 (k * - (1))); [lra |].
        destruct (Rlt_dec (k * - (1)) 0); [reflexivity | lra].
      * exfalso. assert (0 < cos u) by (apply cos_gt_0; lra). lra.
Qed.

Lemma cos_half_cos (t : R) : 1 + cos t = 2 * cos (t / 2) * cos (t / 2).
Proof.
  pose proof (cos_2a_cos (t / 2)) as H.
  replace (2 * (t / 2)) with t in H by field. lra.
Qed.

Lemma sin_half_cos (t : R) : sin t = 2 * sin (t / 2) * cos (t / 2).
Proof.
  pose proof (sin_2a (t / 2)) as H.
  replace (2 * (t / 2)) with t in H by field. exact H.
Qed.

(** The angle of [(1 + cos t, sin t)] is half of [t]. *)
Lemma atan2_half_angle (t : R) :
  - PI < t < PI -> math.atan2 (sin t) (1 + cos t) = t / 2.
Proof.
  intros [H0 H1]. pose proof PI_RGT_0 as Hpi.
  assert (Hc : 0 < cos (t / 2)) by (apply cos_gt_0; lra).
  pose proof (cos_half_cos t) as E1.
  pose proof (sin_half_cos t) as E2.
  rewrite E1, E2.
  replace (2 * sin (t / 2) * cos (t / 2))
    with ((2 * cos (t / 2)) * sin (t / 2)) by ring.
  replace (2 * cos (t / 2) * cos (t / 2))
    with ((2 * cos (t / 2)) * cos (t / 2)) by ring.
  apply atan2_scaled; lra.
Qed.

Lemma py_round2_spec (x : R) :
  exists n : Z, py_round2 x = IZR n / 100 /\ - (1 / 2) <= IZR n - x * 100 <= 1 / 2.
Proof.
  unfold py_round2.
  destruct (base_Int_part (x * 100)) as [H1 H2].
  set (f := Int_part (x * 100)) in *.
  destruct (Rlt_dec (x * 100 - IZR f) (1 / 2)) as [Hl | Hl].
  - exists f. split; [reflexivity |]. lra.
  - destruct (Rgt_dec (x * 100 - IZR f) (1 / 2)) as [Hg | Hg].
    + exists (f + 1)%Z. split; [reflexivity |].
      rewrite plus_IZR. lra.
    + destruct (Z.even f).
      * exists f. split; [reflexivity |]. lra.
      * exists (f + 1)%Z. split; [reflexivity |].
        rewrite plus_IZR. lra.
Qed.

Lemma py_round2_0 : py_round2 0 = 0.
Proof.
  unfold py_round2. replace (0 * 100) with 0 by ring.
  rewrite <- (Int_part_spec 0 0) by (split; lra).
  destruct (Rlt_dec (0 - 0) (1 / 2)); [| lra]. field.
Qed.

Lemma midpoint_try_value (lat1 lon1 lat2 lon2 : R) :
  let p1 := math.radians lat1 in
  let l1 := math.radians lon1 in
  let p2 := math.radians lat2 in
  let l2 := math.radians lon2 in
  let bx := cos p2 * cos (l2 - l1) in
  let by_ := cos p2 * sin (l2 - l1) in
  Geo.midpoint_try lat1 lon1 lat2 lon2
  = Return (math.atan2 (sin p1 + sin p2)
              (sqrt ((cos p1 + bx) * (cos p1 + bx) + by_ * by_)),
            l1 + math.atan2 by_ (cos p1 + bx)).
Proof.
  cbv zeta. unfold Geo.midpoint_try.
  rewrite math_sqrt_nonneg
    by (apply Rplus_le_le_0_compat; apply Rle_0_sqr).
  reflexivity.
Qed.

(** Over the reals, with [py_round2] for [round]: the midpoint of a valid
    point and itself is that point, both coordinates rounded. *)
Lemma midpoint_same_point_exact (lat lon : R) :
  valid_lat lat -> valid_lon lon ->
  Geo.midpoint lat lon lat lon
  = Return (VPair (py_round2 lat) (py_round2 lon)).
Proof.
  intros Ha Hb. unfold Geo.midpoint.
  rewrite check_two_points_valid by assumption. cbn [bind].
  rewrite midpoint_try_value. cbn.
  rewrite Rminus_diag, cos_0, sin_0.
  pose proof (cos_radians_lat lat Ha) as Hc.
  set (p := math.radians lat) in *.
  replace ((cos p + cos p * 1) * (cos p + cos p * 1)
           + cos p * 0 * (cos p * 0))
    with ((2 * cos p) * (2 * cos p)) by ring.
  rewrite sqrt_square by lra.
  replace (sin p + sin p) with (2 * sin p) by ring.
  rewrite atan2_scaled by (try lra; apply radians_lat_bound; exact Ha).
  replace (cos p * 0) with 0 by ring.
  rewrite atan2_zero_nonneg by lra.
  unfold p. rewrite Rplus_0_r, !degrees_radians. reflexivity.
Qed.

(** X10. The midpoint of a valid point and itself is that point to two
    decimals: a pair of whole hundredths, each within 0.005 of the
    coordinate it stands for. *)
Theorem midpoint_same_point (lat lon : R) :
  valid_lat lat -> valid_lon lon ->
  exists n m : Z,
    Geo.midpoint lat lon lat lon
    = Return (VPair (IZR n / 100) (IZR m / 100)) /\
    - (1 / 200) <= IZR n / 100 - lat <= 1 / 200 /\
    - (1 / 200) <= IZR m / 100 - lon <= 1 / 200.
Proof.
  intros Ha Hb. rewrite midpoint_same_point_exact by assumption.
  destruct (py_round2_spec lat) as (n & En & Hn).
  destruct (py_round2_spec lon) as (m & Em & Hm).
  exists n, m. rewrite En, Em. repeat split; lra.
Qed.

Lemma midpoint_same_point_witness :
  exists n m : Z,
    Geo.midpoint 34 118 34 118
    = Return (VPair (IZR n / 100) (IZR m / 100)) /\
    - (1 / 200) <= IZR n / 100 - 34 <= 1 / 200 /\
    - (1 / 200) <= IZR m / 100 - 118 <= 1 / 200.
Proof.
  apply (midpoint_same_point 34 118); unfold valid_lat, valid_lon; lra.
Defined.

(** X11. The midpoint of two valid points is a pair of whole hundredths,
    and its latitude lies in [[-90, 90]]. *)
Theorem midpoint_hundredths (lat1 lon1 lat2 lon2 : R) :
  valid_lat lat1 -> valid_lon lon1 -> valid_lat lat2 -> valid_lon lon2 ->
  exists n m : Z,
    Geo.midpoint lat1 lon1 lat2 lon2
    = Return (VPair (IZR n / 100) (IZR m / 100)) /\
    valid_lat (IZR n / 100).
Proof.
  intros Ha Hb Hc Hd. unfold Geo.midpoint.
  rewrite check_two_points_valid by assumption. cbn [bind].
  rewrite midpoint_try_value. cbn.
  match goal with
  | |- context [VPair (py_round2 (math.degrees ?a))
                      (py_round2 (math.degrees ?b))] =>
      set (mLat := a); set (mLon := b)
  end.
  destruct (py_round2_spec (math.degrees mLat)) as (n & En & Hn).
  destruct (py_round2_spec (math.degrees mLon)) as (m & Em & _).
  exists n, m. rewrite En, Em. split; [reflexivity |].
  assert (Hv : valid_lat (math.degrees mLat)).
  { apply degrees_quarter_turn. apply atan2_right_half. apply sqrt_pos. }
  unfold valid_lat in *.
  assert (Hu : (n < 9001)%Z) by (apply lt_IZR; lra).
  assert (Hl : (-9001 < n)%Z) by (apply lt_IZR; lra).
  assert (IZR n <= 9000) by (apply IZR_le; lia).
  assert (-9000 <= IZR n) by (apply IZR_le; lia).
  lra.
Qed.

Lemma midpoint_hundredths_witness :
  exists n m : Z,
    Geo.midpoint 34 118 40 73 = Return (VPair (IZR n / 100) (IZR m / 100)) /\
    valid_lat (IZR n / 100).
Proof.
  apply (midpoint_hundredths 34 118 40 73); unfold valid_lat, valid_lon; lra.
Defined.

Lemma midpoint_equator (lon1 lon2 : R) :
  valid_lon lon1 -> valid_lon lon2 ->
  Geo.midpoint 0 lon1 0 lon2
  = Return (VPair 0
      (py_round2 (math.degrees
         (math.radians lon1
          + math.atan2 (sin (math.radians lon2 - math.radians lon1))
                       (1 + cos (math.radians lon2 - math.radians lon1)))))).
Proof.
  intros Hb Hd. unfold Geo.midpoint.
  rewrite check_two_points_valid by (unfold valid_lat; try assumption; lra).
  cbn [bind]. rewrite midpoint_try_value. cbn.
  rewrite radians_0, sin_0, cos_0, !Rmult_1_l.
  replace (0 + 0) with 0 by ring.
  rewrite atan2_zero_nonneg by apply sqrt_pos.
  rewrite degrees_0, py_round2_0. reflexivity.
Qed.

(** Over the reals, with [py_round2] for [round]: on the equator the
    longitude of the midpoint is the rounded mean of the two longitudes,
    moved by a half turn when they differ by more than one. *)
Lemma midpoint_on_equator_exact (lon1 lon2 : R) :
  valid_lon lon1 -> valid_lon lon2 ->
  (-180 < lon2 - lon1 < 180 ->
   Geo.midpoint 0 lon1 0 lon2
   = Return (VPair 0 (py_round2 ((lon1 + lon2) / 2)))) /\
  (lon2 - lon1 < -180 ->
   Geo.midpoint 0 lon1 0 lon2
   = Return (VPair 0 (py_round2 ((lon1 + lon2) / 2 + 180)))) /\
  (180 < lon2 - lon1 ->
   Geo.midpoint 0 lon1 0 lon2
   = Return (VPair 0 (py_round2 ((lon1 + lon2) / 2 - 180)))).
Proof.
  intros Hb Hd. rewrite midpoint_equator by assumption.
  pose proof PI_RGT_0 as Hpi.
  assert (Hk : 0 < PI / 180) by lra.
  set (t := math.radians lon2 - math.radians lon1).
  assert (Et : t = (lon2 - lon1) * (PI / 180))
    by (unfold t, math.radians; ring).
  unfold valid_lon in *.
  repeat split; intros H.
  - rewrite atan2_half_angle by (rewrite Et; split; nra).
    do 3 f_equal. unfold t, math.degrees, math.radians. field. lra.
  - replace (sin t) with (sin (t + 2 * PI))
      by (rewrite sin_plus, sin_2PI, cos_2PI; ring).
    replace (cos t) with (cos (t + 2 * PI))
      by (rewrite cos_plus, sin_2PI, cos_2PI; ring).
    rewrite atan2_half_angle by (rewrite Et; split; nra).
    do 3 f_equal. unfold t, math.degrees, math.radians. field. lra.
  - replace (sin t) with (sin (t - 2 * PI))
      by (rewrite sin_minus, sin_2PI, cos_2PI; ring).
    replace (cos t) with (cos (t - 2 * PI))
      by (rewrite cos_minus, sin_2PI, cos_2PI; ring).
    rewrite atan2_half_angle by (rewrite Et; split; nra).
    do 3 f_equal. unfold t, math.degrees, math.radians. field. lra.
Qed.

(** X12. On the equator the midpoint has latitude 0 and a longitude in
    whole hundredths.  If the two longitudes differ by at most 179 it is
    within 0.005 of their mean.  If they differ by 181 or more it is within
    0.005 of the mean moved by 180, and is not brought back into
    [[-180, 180]]. *)
Theorem midpoint_on_equator (lon1 lon2 : R) :
  valid_lon lon1 -> valid_lon lon2 ->
  (-179 <= lon2 - lon1 <= 179 ->
   exists m : Z,
     Geo.midpoint 0 lon1 0 lon2 = Return (VPair 0 (IZR m / 100)) /\
     - (1 / 200) <= IZR m / 100 - (lon1 + lon2) / 2 <= 1 / 200) /\
  (lon2 - lon1 <= -181 ->
   exists m : Z,
     Geo.midpoint 0 lon1 0 lon2 = Return (VPair 0 (IZR m / 100)) /\
     - (1 / 200) <= IZR m / 100 - ((lon1 + lon2) / 2 + 180) <= 1 / 200) /\
  (181 <= lon2 - lon1 ->
   exists m : Z,
     Geo.midpoint 0 lon1 0 lon2 = Return (VPair 0 (IZR m / 100)) /\
     - (1 / 200) <= IZR m / 100 - ((lon1 + lon2) / 2 - 180) <= 1 / 200).
Proof.
  intros Hb Hd.
  destruct (midpoint_on_equator_exact lon1 lon2 Hb Hd) as (H1 & H2 & H3).
  repeat split; intros H.
  - rewrite H1 by lra.
    destruct (py_round2_spec ((lon1 + lon2) / 2)) as (m & Em & Hm).
    exists m. rewrite Em. split; [reflexivity | lra].
  - rewrite H2 by lra.
    destruct (py_round2_spec ((lon1 + lon2) / 2 + 180)) as (m & Em & Hm).
    exists m. rewrite Em. split; [reflexivity | lra].
  - rewrite H3 by lra.
    destruct (py_round2_spec ((lon1 + lon2) / 2 - 180)) as (m & Em & Hm).
    exists m. rewrite Em. split; [reflexivity | lra].
Qed.

Lemma midpoint_on_equator_witness :
  (exists m : Z,
     Geo.midpoint 0 10 0 50 = Return (VPair 0 (IZR m / 100)) /\
     - (1 / 200) <= IZR m / 100 - (10 + 50) / 2 <= 1 / 200) /\
  (exists m : Z,
     Geo.midpoint 0 179 0 (-170) = Return (VPair 0 (IZR m / 100)) /\
     - (1 / 200) <= IZR m / 100 - ((179 + -170) / 2 + 180) <= 1 / 200).
Proof.
  split.
  - apply (midpoint_on_equator 10 50); unfold valid_lon; lra.
  - apply (midpoint_on_equator 179 (-170)); unfold valid_lon; lra.
Defined.

(** ** Great-circle destinations *)

Lemma radians_lon_bound (lon : R) :
  valid_lon lon -> - PI <= math.radians lon <= PI.
Proof.
  unfold valid_lon, math.radians. intros [H1 H2].
  pose proof PI_RGT_0. split; nra.
Qed.

(** A longitude that is already in [[-pi, pi)] is left alone. *)
Lemma normalise_in_range (l : R) :
  - PI <= l < PI -> py_mod (l + 3 * math.pi) (2 * math.pi) - math.pi = l.
Proof.
  intros [H0 H1]. unfold math.pi. pose proof PI_RGT_0 as Hpi.
  rewrite (py_mod_unique (l + 3 * PI) (2 * PI) (l + PI) 1); lra.
Qed.

(** Over the reals.  A distance of 0 leaves a valid point where it is,
    whatever the bearing, the longitude 180 coming back as -180. *)
Lemma destination_point_zero_distance_exact (lat lon brng : R) :
  valid_lat lat -> valid_lon lon ->
  (lon < 180 ->
   Geo.destination_point lat lon brng 0 = Return (VPair lat lon)) /\
  (lon = 180 ->
   Geo.destination_point lat lon brng 0 = Return (VPair lat (-180))).
Proof.
  intros Ha Hb. rewrite destination_point_value by assumption.
  pose proof PI_RGT_0 as Hpi.
  assert (Hl : destination_lat lat brng 0 = math.radians lat).
  { unfold destination_lat.
    replace (0 / Geo.R_earth) with 0 by (unfold Geo.R_earth; field).
    rewrite sin_0, cos_0.
    replace (sin (math.radians lat) * 1
             + cos (math.radians lat) * 0 * cos (math.radians brng))
      with (sin (math.radians lat)) by ring.
    apply asin_sin, radians_lat_bound, Ha. }
  assert (Hd : destination_dlon lat brng 0 = 0).
  { unfold destination_dlon. rewrite Hl.
    replace (0 / Geo.R_earth) with 0 by (unfold Geo.R_earth; field).
    rewrite sin_0, cos_0.
    replace (sin (math.radians brng) * 0 * cos (math.radians lat))
      with 0 by ring.
    apply atan2_zero_nonneg.
    pose proof (sin_cos_sqr (math.radians lat)).
    pose proof (Rle_0_sqr (cos (math.radians lat))) as Hq.
    unfold Rsqr in Hq. lra. }
  unfold destination_lon. rewrite Hl, Hd, Rplus_0_r, degrees_radians.
  destruct (radians_lon_bound lon Hb) as [B0 B1].
  split; intros H.
  - rewrite normalise_in_range
      by (split; [lra | unfold math.radians; nra]).
    now rewrite degrees_radians.
  - subst lon. unfold math.pi.
    replace (math.radians 180 + 3 * PI) with (4 * PI)
      by (unfold math.radians; field).
    rewrite py_mod_two_turns. do 2 f_equal.
    unfold math.degrees. field. lra.
Qed.

(** X13. A distance of 0 leaves a point where it is, whatever the bearing:
    with the latitude within 89 degrees of the equator and the longitude
    within 179 degrees of Greenwich [destination_point] returns the start
    point; a start longitude of 180 comes back as -180. *)
Theorem destination_point_zero_distance (lat lon brng : R) :
  -89 <= lat <= 89 ->
  (-179 <= lon <= 179 ->
   Geo.destination_point lat lon brng 0 = Return (VPair lat lon)) /\
  (lon = 180 ->
   Geo.destination_point lat lon brng 0 = Return (VPair lat (-180))).
Proof.
  intros Ha. split; intros Hb;
    apply (destination_point_zero_distance_exact lat lon brng);
    unfold valid_lat, valid_lon; lra.
Qed.

Lemma destination_point_zero_distance_witness :
  Geo.destination_point 53 1 96 0 = Return (VPair 53 1).
Proof.
  apply (destination_point_zero_distance 53 1 96); lra.
Defined.

(** X14. From a valid start, for every bearing and every distance,
    [destination_point] returns the integer 1 of the handler or a pair that
    is itself a valid point, so that start and result together pass the
    range tests of the two-point methods. *)
Theorem destination_point_valid (lat1 lon1 brng dist : R) :
  valid_lat lat1 -> valid_lon lon1 ->
  Geo.destination_point lat1 lon1 brng dist = Return (VInt 1) \/
  exists lat2 lon2,
    Geo.destination_point lat1 lon1 brng dist = Return (VPair lat2 lon2) /\
    valid_lat lat2 /\ valid_lon lon2 /\
    Geo.check_two_points lat1 lon1 lat2 lon2 = Return tt.
Proof.
  intros Ha Hb. right. do 2 eexists. split.
  - now apply destination_point_value.
  - assert (H1 : valid_lat (math.degrees (destination_lat lat1 brng dist)))
      by (apply degrees_quarter_turn, asin_bound).
    assert (H2 : valid_lon
                   (math.degrees (destination_lon lat1 lon1 brng dist))).
    { unfold valid_lon, destination_lon.
      pose proof (normalised_longitude
                    (math.radians lon1 + destination_dlon lat1 brng dist
                     + 3 * math.pi)). lra. }
    repeat split; try apply H1; try apply H2.
    now apply check_two_points_valid.
Qed.

Lemma destination_point_valid_witness :
  Geo.destination_point 53 1 96 124 = Return (VInt 1) \/
  exists lat2 lon2,
    Geo.destination_point 53 1 96 124 = Return (VPair lat2 lon2) /\
    valid_lat lat2 /\ valid_lon lon2 /\
    Geo.check_two_points 53 1 lat2 lon2 = Return tt.
Proof.
  apply (destination_point_valid 53 1 96 124);
    unfold valid_lat, valid_lon; lra.
Defined.

Lemma destination_point_north_value (lat lon dist : R) :
  valid_lat lat -> valid_lon lon -> lon < 180 ->
  0 <= dist -> lat + math.degrees (dist / Geo.R_earth) <= 90 ->
  Geo.destination_point lat lon 0 dist
  = Return (VPair (lat + math.degrees (dist / Geo.R_earth)) lon).
Proof.
  intros Ha Hb Hlt Hd Hn. rewrite destination_point_value by assumption.
  pose proof PI_RGT_0 as Hpi.
  destruct (radians_lat_bound lat Ha) as [A0 A1].
  set (p := math.radians lat) in *.
  set (dl := dist / Geo.R_earth) in *.
  assert (Hdl : 0 <= dl).
  { unfold dl, Geo.R_earth.
    apply Rmult_le_reg_r with (r := 6371); [lra |].
    replace (dist / 6371 * 6371) with dist by field. lra. }
  assert (Hsum : p + dl <= PI / 2).
  { assert (E : p + dl = (lat + math.degrees dl) * (PI / 180))
      by (unfold p, math.radians, math.degrees; field; lra).
    rewrite E. nra. }
  assert (Hl : destination_lat lat 0 dist = p + dl).
  { unfold destination_lat. fold p dl. rewrite radians_0, cos_0.
    replace (sin p * cos dl + cos p * sin dl * 1) with (sin (p + dl))
      by (rewrite sin_plus; ring).
    apply asin_sin. lra. }
  assert (Hz : destination_dlon lat 0 dist = 0).
  { unfold destination_dlon. rewrite Hl. fold p dl.
    rewrite radians_0, sin_0.
    replace (0 * sin dl * cos p) with 0 by ring.
    apply atan2_zero_nonneg.
    replace (cos dl - sin p * sin (p + dl)) with (cos p * cos (p + dl)).
    - apply Rmult_le_pos; apply cos_ge_0; lra.
    - replace dl with ((p + dl) - p) at 2 by ring.
      rewrite cos_minus. ring. }
  unfold destination_lon. rewrite Hl, Hz, Rplus_0_r.
  destruct (radians_lon_bound lon Hb) as [B0 B1].
  rewrite normalise_in_range
    by (split; [lra | unfold math.radians; unfold valid_lon in Hb; nra]).
  unfold p. rewrite degrees_plus, !degrees_radians. reflexivity.
Qed.

(** X15. Heading due north (bearing 0) from a point at least one degree
    from both poles and from the 180 meridian, over a distance that ends at
    least one degree short of the pole, the latitude grows by the angle
    [dist / R] and the longitude stays. *)
Theorem destination_point_due_north (lat lon dist : R) :
  -89 <= lat <= 89 -> -179 <= lon <= 179 ->
  0 <= dist -> lat + math.degrees (dist / Geo.R_earth) <= 89 ->
  Geo.destination_point lat lon 0 dist
  = Return (VPair (lat + math.degrees (dist / Geo.R_earth)) lon).
Proof.
  intros Ha Hb Hd Hn.
  apply (destination_point_north_value lat lon dist);
    unfold valid_lat, valid_lon; lra.
Qed.

Lemma destination_point_due_north_witness :
  Geo.destination_point 10 20 0 100
  = Return (VPair (10 + math.degrees (100 / Geo.R_earth)) 20).
Proof.
  apply (destination_point_due_north 10 20 100); try lra.
  pose proof PI2_1 as Hpi.
  assert (Hk : 180 / PI < 90).
  { apply Rmult_lt_reg_r with (r := PI); [lra |].
    replace (180 / PI * PI) with 180 by (field; lra). lra. }
  unfold math.degrees, Geo.R_earth. lra.
Defined.

(** ** Rhumb lines away from the poles *)

Lemma mercator_angle (lat : R) :
  -90 < lat < 90 -> 0 < math.radians lat / 2 + PI / 4 < PI / 2.
Proof.
  unfold math.radians. intros [H0 H1]. pose proof PI_RGT_0. split; nra.
Qed.

Lemma mercator_pos (lat : R) : -90 < lat < 90 -> 0 < mercator lat.
Proof.
  intros H. destruct (mercator_angle lat H). unfold mercator.
  now apply tan_gt_0.
Qed.

Lemma mercator_increasing (lat1 lat2 : R) :
  -90 < lat1 -> lat1 < lat2 -> lat2 < 90 -> mercator lat1 < mercator lat2.
Proof.
  intros H0 H1 H2. unfold mercator.
  destruct (mercator_angle lat1 ltac:(lra)).
  destruct (mercator_angle lat2 ltac:(lra)).
  pose proof PI_RGT_0.
  apply tan_increasing; try lra. unfold math.radians. nra.
Qed.

Lemma math_tan_mercator (lat : R) :
  -90 < lat < 90 ->
  math.tan (math.radians lat / 2 + math.pi / 4) = Return (mercator lat).
Proof.
  intros H. destruct (mercator_angle lat H). unfold math.pi.
  apply math_tan_defined. apply Rgt_not_eq. apply cos_gt_0; lra.
Qed.

Lemma rhumb_dPhi_value (lat1 lat2 : R) :
  -90 < lat1 < 90 -> -90 < lat2 < 90 ->
  Geo.rhumb_dPhi (math.radians lat1) (math.radians lat2)
  = Return (ln (mercator lat2 / mercator lat1)).
Proof.
  intros H1 H2. unfold Geo.rhumb_dPhi.
  rewrite !math_tan_mercator by assumption. cbn [bind].
  pose proof (mercator_pos lat1 H1). pose proof (mercator_pos lat2 H2).
  unfold py_div. destruct (Req_dec_T (mercator lat1) 0); [lra |].
  cbn [bind]. apply math_log_pos. now apply Rdiv_lt_0_compat.
Qed.

Lemma ln_ratio (x y : R) : 0 < x -> 0 < y -> ln (y / x) = ln y - ln x.
Proof.
  intros Hx Hy. unfold Rdiv.
  rewrite ln_mult by (try assumption; now apply Rinv_0_lt_compat).
  rewrite ln_Rinv by assumption. ring.
Qed.

Lemma dPhi_sign (lat1 lat2 : R) :
  -90 < lat1 < 90 -> -90 < lat2 < 90 ->
  (lat1 < lat2 -> 0 < ln (mercator lat2 / mercator lat1)) /\
  (lat2 < lat1 -> ln (mercator lat2 / mercator lat1) < 0) /\
  (lat1 = lat2 -> ln (mercator lat2 / mercator lat1) = 0).
Proof.
  intros H1 H2.
  pose proof (mercator_pos lat1 H1). pose proof (mercator_pos lat2 H2).
  rewrite ln_ratio by assumption.
  repeat split; intros H3.
  - pose proof (mercator_increasing lat1 lat2 ltac:(lra) H3 ltac:(lra)).
    pose proof (ln_increasing _ _ H H4). lra.
  - pose proof (mercator_increasing lat2 lat1 ltac:(lra) H3 ltac:(lra)).
    pose proof (ln_increasing _ _ H0 H4). lra.
  - subst. lra.
Qed.

Lemma rhumb_wrap_small (x : R) : - PI <= x <= PI -> Geo.rhumb_wrap x = x.
Proof.
  intros H. unfold Geo.rhumb_wrap, Rgtb, math.fabs, math.pi.
  destruct (Rgt_dec (Rabs x) PI) as [Hg | _]; [| reflexivity].
  exfalso. assert (Rabs x <= PI) by (apply Rabs_le; lra). lra.
Qed.

Lemma rhumb_wrap_over (x : R) :
  PI < x -> Geo.rhumb_wrap x = - (2 * PI - x).
Proof.
  intros H. unfold Geo.rhumb_wrap, Rgtb, math.fabs, math.pi.
  pose proof PI_RGT_0.
  rewrite Rabs_pos_eq by lra.
  destruct (Rgt_dec x PI); [| lra].
  destruct (Rgt_dec x 0); [reflexivity | lra].
Qed.

Lemma rhumb_wrap_under (x : R) :
  x < - PI -> Geo.rhumb_wrap x = 2 * PI + x.
Proof.
  intros H. unfold Geo.rhumb_wrap, Rgtb, math.fabs, math.pi.
  pose proof PI_RGT_0.
  rewrite Rabs_left by lra.
  destruct (Rgt_dec (- x) PI); [| lra].
  destruct (Rgt_dec x 0); [lra | reflexivity].
Qed.

Lemma rhumb_bearing_value (lat1 lon1 lat2 lon2 : R) :
  -90 < lat1 < 90 -> valid_lon lon1 -> -90 < lat2 < 90 -> valid_lon lon2 ->
  Geo.rhumb_bearing lat1 lon1 lat2 lon2
  = Return (VFloat (py_mod
      (math.degrees
         (math.atan2
            (Geo.rhumb_wrap (math.radians lon2 - math.radians lon1))
            (ln (mercator lat2 / mercator lat1))) + 360) 360)).
Proof.
  intros Ha Hb Hc Hd. unfold Geo.rhumb_bearing.
  rewrite check_two_points_valid by (unfold valid_lat; try assumption; lra).
  cbn [bind]. unfold Geo.rhumb_bearing_try.
  rewrite rhumb_dPhi_value by assumption. reflexivity.
Qed.

Lemma py_mod_450 : py_mod (90 + 360) 360 = 90.
Proof. apply py_mod_unique with (k := 1%Z); lra. Qed.

Lemma py_mod_270 : py_mod (-90 + 360) 360 = 270.
Proof. apply py_mod_unique with (k := 0%Z); lra. Qed.

(** Over the reals.  Between two points of one parallel, away from the
    poles, the rhumb bearing is 90 when the shorter way round goes east,
    270 when it goes west, and 0 when the two points are the same. *)
Lemma rhumb_bearing_along_parallel_exact (lat lon1 lon2 : R) :
  -90 < lat < 90 -> valid_lon lon1 -> valid_lon lon2 ->
  (0 < lon2 - lon1 <= 180 \/ -360 < lon2 - lon1 < -180 ->
   Geo.rhumb_bearing lat lon1 lat lon2 = Return (VFloat 90)) /\
  (-180 <= lon2 - lon1 < 0 \/ 180 < lon2 - lon1 < 360 ->
   Geo.rhumb_bearing lat lon1 lat lon2 = Return (VFloat 270)) /\
  (lon1 = lon2 ->
   Geo.rhumb_bearing lat lon1 lat lon2 = Return (VFloat 0)).
Proof.
  intros Ha Hb Hd. rewrite rhumb_bearing_value by assumption.
  destruct (dPhi_sign lat lat Ha Ha) as (_ & _ & Hz).
  rewrite Hz by reflexivity.
  pose proof PI_RGT_0 as Hpi.
  set (x := math.radians lon2 - math.radians lon1).
  set (k := PI / 180).
  assert (Hk : 0 < k) by (unfold k; lra).
  assert (Epi : PI = 180 * k) by (unfold k; field).
  assert (Ex : x = (lon2 - lon1) * k)
    by (unfold x, k, math.radians; ring).
  set (D := lon2 - lon1) in *.
  repeat split; intros H.
  - assert (Hw : 0 < Geo.rhumb_wrap x).
    { destruct H as [[H0 H1] | [H0 H1]].
      - assert (0 < D * k) by (apply Rmult_lt_0_compat; lra).
        assert (0 <= (180 - D) * k) by (apply Rmult_le_pos; lra).
        rewrite rhumb_wrap_small by lra. lra.
      - assert (0 < (360 + D) * k) by (apply Rmult_lt_0_compat; lra).
        assert (0 < (- 180 - D) * k) by (apply Rmult_lt_0_compat; lra).
        rewrite rhumb_wrap_under by lra. lra. }
    rewrite atan2_pos_zero by exact Hw.
    now rewrite degrees_PI2, py_mod_450.
  - assert (Hw : Geo.rhumb_wrap x < 0).
    { destruct H as [[H0 H1] | [H0 H1]].
      - assert (0 < (- D) * k) by (apply Rmult_lt_0_compat; lra).
        assert (0 <= (180 + D) * k) by (apply Rmult_le_pos; lra).
        rewrite rhumb_wrap_small by lra. lra.
      - assert (0 < (360 - D) * k) by (apply Rmult_lt_0_compat; lra).
        assert (0 < (D - 180) * k) by (apply Rmult_lt_0_compat; lra).
        rewrite rhumb_wrap_over by lra. lra. }
    rewrite atan2_neg_zero by exact Hw.
    replace (math.degrees (- (PI / 2))) with (-90)
      by (unfold math.degrees; field; lra).
    now rewrite py_mod_270.
  - assert (E0 : x = 0) by (rewrite Ex; unfold D; rewrite H; ring).
    rewrite E0, rhumb_wrap_small by lra.
    rewrite atan2_zero_nonneg by lra.
    now rewrite degrees_0, py_mod_360_0.
Qed.

(** X16. Between two points of one parallel, at least one degree from the
    poles, the rhumb bearing is 90 when the shorter way round goes east and
    270 when it goes west, the two longitudes being at least one degree
    apart and at least one degree from opposite; it is 0 when the two
    points are the same. *)
Theorem rhumb_bearing_along_parallel (lat lon1 lon2 : R) :
  -89 <= lat <= 89 -> valid_lon lon1 -> valid_lon lon2 ->
  (1 <= lon2 - lon1 <= 179 \/ -359 <= lon2 - lon1 <= -181 ->
   Geo.rhumb_bearing lat lon1 lat lon2 = Return (VFloat 90)) /\
  (-179 <= lon2 - lon1 <= -1 \/ 181 <= lon2 - lon1 <= 359 ->
   Geo.rhumb_bearing lat lon1 lat lon2 = Return (VFloat 270)) /\
  (lon1 = lon2 ->
   Geo.rhumb_bearing lat lon1 lat lon2 = Return (VFloat 0)).
Proof.
  intros Ha Hb Hd.
  destruct (rhumb_bearing_along_parallel_exact lat lon1 lon2
              ltac:(lra) Hb Hd) as (He & Hw & Hs).
  repeat split; intros H; [apply He | apply Hw | apply Hs]; lra.
Qed.

Lemma rhumb_bearing_along_parallel_witness :
  Geo.rhumb_bearing 50 4 50 71 = Return (VFloat 90) /\
  Geo.rhumb_bearing 50 71 50 4 = Return (VFloat 270) /\
  Geo.rhumb_bearing 50 170 50 (-170) = Return (VFloat 90).
Proof.
  repeat split.
  - apply (rhumb_bearing_along_parallel 50 4 71); unfold valid_lon; lra.
  - apply (rhumb_bearing_along_parallel 50 71 4); unfold valid_lon; lra.
  - apply (rhumb_bearing_along_parallel 50 170 (-170)); unfold valid_lon; lra.
Defined.

(** Over the reals.  Along a meridian, away from the poles, the rhumb
    bearing is 0 towards a higher latitude and 180 towards a lower one. *)
Lemma rhumb_bearing_along_meridian_exact (lat1 lat2 lon : R) :
  -90 < lat1 < 90 -> -90 < lat2 < 90 -> valid_lon lon ->
  (lat1 < lat2 -> Geo.rhumb_bearing lat1 lon lat2 lon = Return (VFloat 0)) /\
  (lat2 < lat1 -> Geo.rhumb_bearing lat1 lon lat2 lon = Return (VFloat 180)).
Proof.
  intros Ha Hc Hb. rewrite rhumb_bearing_value by assumption.
  destruct (dPhi_sign lat1 lat2 Ha Hc) as (Hp & Hn & _).
  pose proof PI_RGT_0 as Hpi.
  rewrite Rminus_diag, rhumb_wrap_small by lra.
  split; intros H.
  - rewrite atan2_zero_nonneg by (specialize (Hp H); lra).
    now rewrite degrees_0, py_mod_360_0.
  - rewrite atan2_zero_neg by (exact (Hn H)).
    now rewrite degrees_PI, py_mod_540.
Qed.

(** X17. Along a meridian, between two latitudes at least one degree apart
    and at least one degree from the poles, the rhumb bearing is 0 towards
    the higher latitude and 180 towards the lower one. *)
Theorem rhumb_bearing_along_meridian (lat1 lat2 lon : R) :
  -89 <= lat1 <= 89 -> -89 <= lat2 <= 89 -> valid_lon lon ->
  (1 <= lat2 - lat1 ->
   Geo.rhumb_bearing lat1 lon lat2 lon = Return (VFloat 0)) /\
  (1 <= lat1 - lat2 ->
   Geo.rhumb_bearing lat1 lon lat2 lon = Return (VFloat 180)).
Proof.
  intros Ha Hc Hb.
  destruct (rhumb_bearing_along_meridian_exact lat1 lat2 lon
              ltac:(lra) ltac:(lra) Hb) as [Hn Hs].
  split; intros H; [apply Hn | apply Hs]; lra.
Qed.

Lemma rhumb_bearing_along_meridian_witness :
  Geo.rhumb_bearing 42 4 50 4 = Return (VFloat 0) /\
  Geo.rhumb_bearing 50 4 42 4 = Return (VFloat 180).
Proof.
  split.
  - apply (rhumb_bearing_along_meridian 42 50 4); unfold valid_lon; lra.
  - apply (rhumb_bearing_along_meridian 50 42 4); unfold valid_lon; lra.
Defined.

(** ** Rhumb distances *)

(** Whenever the haversine term is the squared sine of an angle in the
    first quadrant, the distance is the radius times twice that angle. *)
Lemma distance_haversine_half_angle (lat1 lon1 lat2 lon2 u : R) :
  valid_lat lat1 -> valid_lon lon1 -> valid_lat lat2 -> valid_lon lon2 ->
  0 <= u <= PI / 2 ->
  Geo.haversine_a lat1 lon1 lat2 lon2 = sin u * sin u ->
  Geo.distance_haversine lat1 lon1 lat2 lon2
  = Return (VFloat (Geo.R_earth * (2 * u))).
Proof.
  intros Ha Hb Hc Hd Hu E.
  rewrite distance_haversine_value by assumption. rewrite E.
  pose proof PI_RGT_0 as Hpi.
  assert (Hs : 0 <= sin u) by (apply sin_ge_0; lra).
  assert (Hc' : 0 <= cos u) by (apply cos_ge_0; lra).
  replace (1 - sin u * sin u) with (cos u * cos u)
    by (pose proof (sin_cos_sqr u); lra).
  rewrite !sqrt_square by assumption.
  now rewrite atan2_sin_cos by exact Hu.
Qed.

Lemma distance_haversine_meridian (lat1 lat2 lon : R) :
  valid_lat lat1 -> valid_lat lat2 -> valid_lon lon ->
  Geo.distance_haversine lat1 lon lat2 lon
  = Return (VFloat (Geo.R_earth
                    * Rabs (math.radians lat2 - math.radians lat1))).
Proof.
  intros Ha Hc Hb.
  destruct (radians_lat_bound lat1 Ha) as [A0 A1].
  destruct (radians_lat_bound lat2 Hc) as [B0 B1].
  set (D := math.radians lat2 - math.radians lat1).
  assert (Hr : Rabs D <= PI) by (apply Rabs_le; unfold D; lra).
  pose proof (Rabs_pos D) as Hp.
  assert (E : Geo.haversine_a lat1 lon lat2 lon
              = sin (Rabs D / 2) * sin (Rabs D / 2)).
  { unfold Geo.haversine_a. rewrite radians_minus. fold D.
    rewrite Rminus_diag, radians_0.
    replace (0 / 2) with 0 by field. rewrite sin_0.
    unfold Rabs. destruct (Rcase_abs D).
    - replace (- D / 2) with (- (D / 2)) by field. rewrite sin_neg. ring.
    - ring. }
  rewrite (distance_haversine_half_angle lat1 lon lat2 lon (Rabs D / 2))
    by (try assumption; lra).
  do 3 f_equal. field.
Qed.

Lemma rhumb_wrap_0 : Geo.rhumb_wrap (math.fabs 0) = 0.
Proof.
  unfold math.fabs. rewrite Rabs_R0. apply rhumb_wrap_small.
  pose proof PI_RGT_0. lra.
Qed.

(** Over the reals.  Between two different latitudes of one meridian,
    away from the poles, the rhumb distance is the radius times the
    difference of the latitudes in radians, and it is the haversine
    distance. *)
Lemma rhumb_distance_along_meridian_exact (lat1 lat2 lon : R) :
  -90 < lat1 < 90 -> -90 < lat2 < 90 -> lat1 <> lat2 -> valid_lon lon ->
  exists d,
    Geo.rhumb_distance lat1 lon lat2 lon = Return (VFloat d) /\
    Geo.distance_haversine lat1 lon lat2 lon = Return (VFloat d) /\
    d = Geo.R_earth * Rabs (math.radians lat2 - math.radians lat1).
Proof.
  intros Ha Hc Hne Hb.
  assert (Va : valid_lat lat1) by (unfold valid_lat; lra).
  assert (Vc : valid_lat lat2) by (unfold valid_lat; lra).
  eexists. split; [| split; [now apply distance_haversine_meridian
                            | reflexivity]].
  unfold Geo.rhumb_distance.
  rewrite check_two_points_valid by assumption. cbn [bind].
  unfold Geo.rhumb_distance_try.
  rewrite rhumb_dPhi_value by assumption. cbn [bind].
  destruct (dPhi_sign lat1 lat2 Ha Hc) as (Hp & Hn & _).
  set (L := ln (mercator lat2 / mercator lat1)) in *.
  assert (HL : L <> 0).
  { destruct (Rtotal_order lat1 lat2) as [H | [H | H]];
      [specialize (Hp H) | contradiction | specialize (Hn H)]; lra. }
  unfold Geo.rhumb_q, py_div.
  destruct (Req_dec_T L 0); [contradiction |].
  unfold math.isinf. cbn [bind].
  rewrite Rminus_diag, rhumb_wrap_0. unfold math.pow.
  set (D := math.radians lat2 - math.radians lat1).
  replace (D ^ 2 + (D / L) ^ 2 * 0 ^ 2) with (Rsqr D)
    by (unfold Rsqr; ring).
  rewrite math_sqrt_nonneg by apply Rle_0_sqr. cbn.
  rewrite sqrt_Rsqr_abs. do 2 f_equal. ring.
Qed.

(** X18. Between two latitudes of one meridian that are at least one
    degree apart and at least one degree from the poles, the rhumb distance
    is the radius times the difference of the latitudes in radians, and it
    is the haversine distance. *)
Theorem rhumb_distance_along_meridian (lat1 lat2 lon : R) :
  -89 <= lat1 <= 89 -> -89 <= lat2 <= 89 ->
  1 <= lat2 - lat1 \/ 1 <= lat1 - lat2 -> valid_lon lon ->
  exists d,
    Geo.rhumb_distance lat1 lon lat2 lon = Return (VFloat d) /\
    Geo.distance_haversine lat1 lon lat2 lon = Return (VFloat d) /\
    d = Geo.R_earth * Rabs (math.radians lat2 - math.radians lat1).
Proof.
  intros Ha Hc Hne Hb.
  apply rhumb_distance_along_meridian_exact; try assumption; lra.
Qed.

Lemma rhumb_distance_along_meridian_witness :
  exists d,
    Geo.rhumb_distance 42 4 50 4 = Return (VFloat d) /\
    Geo.distance_haversine 42 4 50 4 = Return (VFloat d) /\
    d = Geo.R_earth * Rabs (math.radians 50 - math.radians 42).
Proof.
  apply (rhumb_distance_along_meridian 42 50 4); unfold valid_lon; lra.
Defined.

Lemma check_two_points_sym (lat1 lon1 lat2 lon2 : R) :
  Geo.check_two_points lat1 lon1 lat2 lon2
  = Geo.check_two_points lat2 lon2 lat1 lon1.
Proof.
  unfold Geo.check_two_points.
  rewrite (orb_comm (Rgtb lat1 90 || Rltb lat1 (-90))).
  rewrite (orb_comm (Rgtb lon1 180 || Rltb lon1 (-180))). reflexivity.
Qed.

(** Swapping the two latitudes changes the sign of [dPhi], and it fails
    one way round exactly when it fails the other way round. *)
Lemma rhumb_dPhi_swap (p1 p2 : R) :
  (exists L, Geo.rhumb_dPhi p1 p2 = Return L /\
             Geo.rhumb_dPhi p2 p1 = Return (- L)) \/
  ((exists e, Geo.rhumb_dPhi p1 p2 = Raise e) /\
   (exists e, Geo.rhumb_dPhi p2 p1 = Raise e)).
Proof.
  unfold Geo.rhumb_dPhi, math.tan. cbn [bind].
  set (t1 := if Req_dec_T (cos (p1 / 2 + math.pi / 4)) 0
             then math.tan_right_angle else tan (p1 / 2 + math.pi / 4)).
  set (t2 := if Req_dec_T (cos (p2 / 2 + math.pi / 4)) 0
             then math.tan_right_angle else tan (p2 / 2 + math.pi / 4)).
  unfold py_div.
  destruct (Req_dec_T t1 0) as [Z1 | N1], (Req_dec_T t2 0) as [Z2 | N2];
    cbn [bind].
  - right; split; eexists; reflexivity.
  - right. split; [eexists; reflexivity |].
    rewrite math_log_nonpos by (rewrite Z1; unfold Rdiv; lra).
    eexists; reflexivity.
  - right. split; [| eexists; reflexivity].
    rewrite math_log_nonpos by (rewrite Z2; unfold Rdiv; lra).
    eexists; reflexivity.
  - assert (E : t1 / t2 = / (t2 / t1)) by (field; split; assumption).
    destruct (Rle_dec (t2 / t1) 0) as [Hle | Hgt].
    + right.
      assert (Hlt : t2 / t1 < 0).
      { destruct Hle as [H | H]; [exact H |].
        exfalso. apply N2.
        replace t2 with (t2 / t1 * t1) by (field; assumption).
        rewrite H. ring. }
      rewrite (math_log_nonpos (t2 / t1)) by lra.
      rewrite (math_log_nonpos (t1 / t2))
        by (rewrite E; pose proof (Rinv_lt_0_compat _ Hlt); lra).
      split; eexists; reflexivity.
    + left. exists (ln (t2 / t1)).
      assert (Hp : 0 < t2 / t1) by lra.
      rewrite (math_log_pos (t2 / t1)) by exact Hp.
      rewrite (math_log_pos (t1 / t2))
        by (rewrite E; now apply Rinv_0_lt_compat).
      split; [reflexivity |]. rewrite E, ln_Rinv by exact Hp. reflexivity.
Qed.

(** Over the reals [rhumb_distance] does not depend on the order of its
    two points, whether it returns a distance, the integer 1 or raises. *)
Lemma rhumb_distance_swap (lat1 lon1 lat2 lon2 : R) :
  Geo.rhumb_distance lat1 lon1 lat2 lon2
  = Geo.rhumb_distance lat2 lon2 lat1 lon1.
Proof.
  unfold Geo.rhumb_distance.
  rewrite (check_two_points_sym lat1 lon1 lat2 lon2).
  destruct (Geo.check_two_points lat2 lon2 lat1 lon1); [| reflexivity].
  cbn [bind]. unfold Geo.rhumb_distance_try.
  destruct (rhumb_dPhi_swap (math.radians lat1) (math.radians lat2))
    as [(L & E1 & E2) | ([e1 E1] & [e2 E2])]; rewrite E1, E2;
    [| reflexivity].
  cbn [bind]. unfold Geo.rhumb_q, py_div.
  destruct (Req_dec_T L 0) as [Z | N], (Req_dec_T (- L) 0) as [Z' | N'];
    try lra; [reflexivity |].
  unfold math.isinf. cbn [bind].
  replace ((math.radians lat1 - math.radians lat2) / - L)
    with ((math.radians lat2 - math.radians lat1) / L) by (field; exact N).
  replace (math.fabs (math.radians lon1 - math.radians lon2))
    with (math.fabs (math.radians lon2 - math.radians lon1))
    by (unfold math.fabs; apply Rabs_minus_sym).
  replace (math.pow (math.radians lat1 - math.radians lat2) 2)
    with (math.pow (math.radians lat2 - math.radians lat1) 2)
    by (unfold math.pow; ring).
  reflexivity.
Qed.

Lemma rhumb_distance_float (lat1 lon1 lat2 lon2 : R) :
  -90 < lat1 < 90 -> valid_lon lon1 -> -90 < lat2 < 90 -> valid_lon lon2 ->
  lat1 <> lat2 ->
  exists d, Geo.rhumb_distance lat1 lon1 lat2 lon2 = Return (VFloat d).
Proof.
  intros Ha Hb Hc Hd Hne. unfold Geo.rhumb_distance.
  rewrite check_two_points_valid by (unfold valid_lat; try assumption; lra).
  cbn [bind]. unfold Geo.rhumb_distance_try.
  rewrite rhumb_dPhi_value by assumption. cbn [bind].
  destruct (dPhi_sign lat1 lat2 Ha Hc) as (Hp & Hn & _).
  set (L := ln (mercator lat2 / mercator lat1)) in *.
  assert (HL : L <> 0).
  { destruct (Rtotal_order lat1 lat2) as [H | [H | H]];
      [specialize (Hp H) | contradiction | specialize (Hn H)]; lra. }
  unfold Geo.rhumb_q, py_div.
  destruct (Req_dec_T L 0); [contradiction |].
  unfold math.isinf. cbn [bind]. unfold math.pow.
  rewrite math_sqrt_nonneg.
  - eexists. reflexivity.
  - apply Rplus_le_le_0_compat; [apply pow2_ge_0 |].
    apply Rmult_le_pos; apply pow2_ge_0.
Qed.

(** X19. For two valid points whose latitudes are at least one degree apart
    and at least one degree from the poles, [rhumb_distance] returns the
    same distance whichever of the two points comes first. *)
Theorem rhumb_distance_symmetric (lat1 lon1 lat2 lon2 : R) :
  -89 <= lat1 <= 89 -> valid_lon lon1 ->
  -89 <= lat2 <= 89 -> valid_lon lon2 ->
  1 <= lat2 - lat1 \/ 1 <= lat1 - lat2 ->
  exists d,
    Geo.rhumb_distance lat1 lon1 lat2 lon2 = Return (VFloat d) /\
    Geo.rhumb_distance lat2 lon2 lat1 lon1 = Return (VFloat d).
Proof.
  intros Ha Hb Hc Hd Hne.
  destruct (rhumb_distance_float lat1 lon1 lat2 lon2) as [d E];
    try assumption; try lra.
  exists d. split; [exact E |].
  now rewrite <- (rhumb_distance_swap lat1 lon1 lat2 lon2).
Qed.

Lemma rhumb_distance_symmetric_witness :
  exists d,
    Geo.rhumb_distance 50 4 42 71 = Return (VFloat d) /\
    Geo.rhumb_distance 42 71 50 4 = Return (VFloat d).
Proof.
  apply (rhumb_distance_symmetric 50 4 42 71); unfold valid_lon; lra.
Defined.

(** X20. With a distance of 0 [rhumb_destination_point] does not return
    the start point: the latitude does not change, the division by
    [dPhi = 0] raises, and the result is the integer 1, for every bearing. *)
Theorem rhumb_destination_point_zero_distance (lat lon brng : R) :
  valid_lat lat -> valid_lon lon ->
  Geo.rhumb_destination_point lat lon brng 0 = Return (VInt 1).
Proof.
  intros Ha Hb. unfold Geo.rhumb_destination_point.
  rewrite check_one_point_valid by assumption. cbn [bind].
  assert (E : exists e,
             Geo.rhumb_destination_point_try lat lon brng 0 = Raise e).
  { unfold Geo.rhumb_destination_point_try.
    replace (math.radians lat
             + 0 / Geo.R_earth * cos (math.radians brng))
      with (math.radians lat) by (unfold Geo.R_earth; field).
    destruct (rhumb_dPhi_parallel (math.radians lat)) as [H | [e H]];
      rewrite H.
    - cbn [bind]. rewrite rhumb_q_zero. eexists. reflexivity.
    - eexists. reflexivity. }
  destruct E as [e E]. now apply try_except_raise with (e := e).
Qed.

Lemma rhumb_destination_point_zero_distance_witness :
  Geo.rhumb_destination_point 51 1 116 0 = Return (VInt 1).
Proof.
  apply (rhumb_destination_point_zero_distance 51 1 116);
    unfold valid_lat, valid_lon; lra.
Defined.

(** ** Rhumb bearings, destinations and midpoints *)

(** X21. On valid points [rhumb_bearing] returns the integer 1 of the
    handler or a float in [[0, 360)]. *)
Theorem rhumb_bearing_range (lat1 lon1 lat2 lon2 : R) :
  valid_lat lat1 -> valid_lon lon1 -> valid_lat lat2 -> valid_lon lon2 ->
  Geo.rhumb_bearing lat1 lon1 lat2 lon2 = Return (VInt 1) \/
  exists b,
    Geo.rhumb_bearing lat1 lon1 lat2 lon2 = Return (VFloat b) /\
    0 <= b < 360.
Proof.
  intros Ha Hb Hc Hd. unfold Geo.rhumb_bearing.
  rewrite check_two_points_valid by assumption. cbn [bind].
  destruct (try_except_total (Geo.rhumb_bearing_try lat1 lon1 lat2 lon2)
              (fun brng => VFloat (py_mod (math.degrees brng + 360) 360)))
    as [H | (a & _ & H)]; rewrite H; [now left | right].
  eexists. split; [reflexivity |]. apply py_mod_bound. lra.
Qed.

Lemma rhumb_bearing_range_witness :
  Geo.rhumb_bearing 50 4 42 71 = Return (VInt 1) \/
  exists b,
    Geo.rhumb_bearing 50 4 42 71 = Return (VFloat b) /\ 0 <= b < 360.
Proof.
  apply (rhumb_bearing_range 50 4 42 71); unfold valid_lat, valid_lon; lra.
Defined.

(** Over the reals.  Heading due north along a rhumb line from a point
    away from the poles, over a positive distance that stays short of the
    pole, the rhumb destination is the great-circle destination. *)
Lemma rhumb_destination_point_due_north_exact (lat lon dist : R) :
  -90 < lat < 90 -> valid_lon lon -> lon < 180 ->
  0 < dist -> lat + math.degrees (dist / Geo.R_earth) < 90 ->
  Geo.rhumb_destination_point lat lon 0 dist
  = Return (VPair (lat + math.degrees (dist / Geo.R_earth)) lon) /\
  Geo.rhumb_destination_point lat lon 0 dist
  = Geo.destination_point lat lon 0 dist.
Proof.
  intros Ha Hb Hlt Hd Hn.
  assert (Va : valid_lat lat) by (unfold valid_lat; lra).
  rewrite (destination_point_north_value lat lon dist) by (try assumption; lra).
  assert (E : Geo.rhumb_destination_point lat lon 0 dist
              = Return (VPair (lat + math.degrees (dist / Geo.R_earth)) lon));
    [| split; [exact E | exact E]].
  pose proof PI_RGT_0 as Hpi.
  set (dl := dist / Geo.R_earth) in *.
  assert (Hdl : 0 < dl).
  { unfold dl, Geo.R_earth.
    apply Rmult_lt_reg_r with (r := 6371); [lra |].
    replace (dist / 6371 * 6371) with dist by field. lra. }
  assert (Hdeg : 0 < math.degrees dl).
  { unfold math.degrees. apply Rmult_lt_0_compat; [exact Hdl |].
    apply Rdiv_lt_0_compat; lra. }
  set (lat2 := lat + math.degrees dl) in *.
  assert (E2 : math.radians lat + dl = math.radians lat2)
    by (unfold lat2, math.radians, math.degrees; field; lra).
  assert (Hgt : lat < lat2) by (unfold lat2; lra).
  assert (Hc : -90 < lat2 < 90) by lra.
  unfold Geo.rhumb_destination_point.
  rewrite check_one_point_valid by assumption. cbn [bind].
  unfold Geo.rhumb_destination_point_try. fold dl.
  rewrite radians_0, cos_0, sin_0, Rmult_1_r, Rmult_0_r, E2.
  rewrite rhumb_dPhi_value by assumption. cbn [bind].
  destruct (dPhi_sign lat lat2 Ha Hc) as (Hp & _ & _).
  specialize (Hp Hgt).
  set (L := ln (mercator lat2 / mercator lat)) in *.
  assert (HD : 0 < math.radians lat2 - math.radians lat) by lra.
  set (D := math.radians lat2 - math.radians lat) in *.
  assert (Hq : 0 < D / L) by (now apply Rdiv_lt_0_compat).
  unfold Geo.rhumb_q, py_div.
  destruct (Req_dec_T L 0); [lra |].
  unfold math.isinf. cbn [bind].
  destruct (Req_dec_T (D / L) 0); [lra |]. cbn [bind fst snd].
  replace (0 / (D / L)) with 0 by (field; split; lra).
  destruct (radians_lat_bound lat2 ltac:(unfold valid_lat; lra)) as [B0 B1].
  unfold Rgtb, math.fabs, math.pi.
  destruct (Rgt_dec (Rabs (math.radians lat2)) (PI / 2)) as [Hg | _].
  { exfalso. assert (Rabs (math.radians lat2) <= PI / 2)
      by (apply Rabs_le; lra). lra. }
  rewrite Rplus_0_r.
  destruct (radians_lon_bound lon Hb) as [C0 C1].
  pose proof (normalise_in_range (math.radians lon)
                ltac:(split; [lra | unfold math.radians; unfold valid_lon in Hb; nra]))
    as Hnorm.
  unfold math.pi in Hnorm. rewrite Hnorm.
  cbn. now rewrite !degrees_radians.
Qed.

(** X22. Heading due north (bearing 0) along a rhumb line from a point at
    least one degree from both poles and from the 180 meridian, over a
    distance of at least one degree of arc that ends at least one degree
    short of the pole, the latitude grows by the angle [dist / R] and the
    longitude stays: the rhumb destination is the great-circle
    destination. *)
Theorem rhumb_destination_point_due_north (lat lon dist : R) :
  -89 <= lat <= 89 -> -179 <= lon <= 179 ->
  1 <= math.degrees (dist / Geo.R_earth) ->
  lat + math.degrees (dist / Geo.R_earth) <= 89 ->
  Geo.rhumb_destination_point lat lon 0 dist
  = Return (VPair (lat + math.degrees (dist / Geo.R_earth)) lon) /\
  Geo.rhumb_destination_point lat lon 0 dist
  = Geo.destination_point lat lon 0 dist.
Proof.
  intros Ha Hb Hd Hn.
  assert (Hpos : 0 < dist).
  { destruct (Rlt_le_dec 0 dist) as [H | H]; [exact H | exfalso].
    pose proof PI_RGT_0 as Hpi.
    assert (Hk : 0 < 180 / PI) by (apply Rdiv_lt_0_compat; lra).
    unfold math.degrees, Geo.R_earth in Hd.
    assert (dist / 6371 <= 0) by lra. nra. }
  apply rhumb_destination_point_due_north_exact;
    unfold valid_lon; try lra.
Qed.

Lemma rhumb_destination_point_due_north_witness :
  Geo.rhumb_destination_point 10 20 0 200
  = Return (VPair (10 + math.degrees (200 / Geo.R_earth)) 20) /\
  Geo.rhumb_destination_point 10 20 0 200 = Geo.destination_point 10 20 0 200.
Proof.
  pose proof PI2_1 as Hpi. pose proof PI_4 as Hpi4.
  assert (Hk : 45 <= 180 / PI < 90).
  { split.
    - apply Rmult_le_reg_r with (r := PI); [lra |].
      replace (180 / PI * PI) with 180 by (field; lra). lra.
    - apply Rmult_lt_reg_r with (r := PI); [lra |].
      replace (180 / PI * PI) with 180 by (field; lra). lra. }
  apply (rhumb_destination_point_due_north 10 20 200); try lra;
    unfold math.degrees, Geo.R_earth; lra.
Defined.

Lemma math_tan_mercator' (lat : R) :
  -90 < lat < 90 ->
  math.tan (math.pi / 4 + math.radians lat / 2) = Return (mercator lat).
Proof.
  intros H. rewrite Rplus_comm. now apply math_tan_mercator.
Qed.

(** What [rhumb_midpoint] computes whenever its formula goes through:
    the mean of the two latitudes, and a longitude taken modulo a full
    turn. *)
Lemma rhumb_midpoint_try_shape (lat1 lon1 lat2 lon2 : R) (p : R * R) :
  Geo.rhumb_midpoint_try lat1 lon1 lat2 lon2 = Return p ->
  fst p = (math.radians lat2 + math.radians lat1) / 2 /\
  exists x, snd p = py_mod x (2 * math.pi) - math.pi.
Proof.
  unfold Geo.rhumb_midpoint_try.
  repeat match goal with
  | |- bind ?m _ = _ -> _ =>
      destruct m; [cbn [bind] | discriminate]
  end.
  intros H. injection H as <-. cbn. split; [reflexivity |].
  eexists. reflexivity.
Qed.

(** X23. When [rhumb_midpoint] returns a pair, its latitude is the
    arithmetic mean of the two latitudes and its longitude lies in
    [[-180, 180)]; otherwise it returns the integer 1. *)
Theorem rhumb_midpoint_mean_latitude (lat1 lon1 lat2 lon2 : R) :
  valid_lat lat1 -> valid_lon lon1 ->
  Geo.rhumb_midpoint lat1 lon1 lat2 lon2 = Return (VInt 1) \/
  exists lon3,
    Geo.rhumb_midpoint lat1 lon1 lat2 lon2
    = Return (VPair ((lat2 + lat1) / 2) lon3) /\
    -180 <= lon3 < 180.
Proof.
  intros Ha Hb. unfold Geo.rhumb_midpoint.
  rewrite check_one_point_valid by assumption. cbn [bind].
  destruct (try_except_total (Geo.rhumb_midpoint_try lat1 lon1 lat2 lon2)
              (fun p => VPair (math.degrees (fst p)) (math.degrees (snd p))))
    as [H | (p & Hp & H)]; rewrite H; [now left | right].
  destruct (rhumb_midpoint_try_shape _ _ _ _ _ Hp) as [E1 [x E2]].
  exists (math.degrees (snd p)). split.
  - f_equal. f_equal. rewrite E1.
    unfold math.degrees, math.radians. field. apply PI_neq0.
  - rewrite E2. apply normalised_longitude.
Qed.

Lemma rhumb_midpoint_mean_latitude_witness :
  Geo.rhumb_midpoint 50 4 42 71 = Return (VInt 1) \/
  exists lon3,
    Geo.rhumb_midpoint 50 4 42 71 = Return (VPair ((42 + 50) / 2) lon3) /\
    -180 <= lon3 < 180.
Proof.
  apply (rhumb_midpoint_mean_latitude 50 4 42 71);
    unfold valid_lat, valid_lon; lra.
Defined.

(** Over the reals.  Between two different latitudes of one meridian,
    away from the poles, the rhumb midpoint lies on that meridian at the
    mean latitude. *)
Lemma rhumb_midpoint_along_meridian_exact (lat1 lat2 lon : R) :
  -90 < lat1 < 90 -> -90 < lat2 < 90 -> lat1 <> lat2 ->
  valid_lon lon -> lon < 180 ->
  Geo.rhumb_midpoint lat1 lon lat2 lon
  = Return (VPair ((lat2 + lat1) / 2) lon).
Proof.
  intros Ha Hc Hne Hb Hlt.
  assert (Hm : -90 < (lat2 + lat1) / 2 < 90) by lra.
  unfold Geo.rhumb_midpoint.
  rewrite check_one_point_valid by (unfold valid_lat; try assumption; lra).
  cbn [bind]. unfold Geo.rhumb_midpoint_try.
  replace ((math.radians lat2 + math.radians lat1) / 2)
    with (math.radians ((lat2 + lat1) / 2)) by (unfold math.radians; field).
  rewrite !math_tan_mercator' by assumption. cbn [bind].
  pose proof (mercator_pos lat1 Ha) as P1.
  pose proof (mercator_pos lat2 Hc) as P2.
  pose proof (mercator_pos _ Hm) as P3.
  rewrite !math_log_pos by assumption. cbn [bind].
  unfold py_div at 1.
  destruct (Req_dec_T (mercator lat1) 0); [lra |]. cbn [bind].
  rewrite math_log_pos by (now apply Rdiv_lt_0_compat). cbn [bind].
  destruct (dPhi_sign lat1 lat2 Ha Hc) as (Hp & Hn & _).
  assert (HL : ln (mercator lat2 / mercator lat1) <> 0).
  { destruct (Rtotal_order lat1 lat2) as [H | [H | H]];
      [specialize (Hp H) | contradiction | specialize (Hn H)]; lra. }
  unfold py_div. destruct (Req_dec_T _ 0) as [Z | _]; [contradiction |].
  unfold math.isnan. cbn.
  assert (El : ((math.radians lon - math.radians lon)
                  * ln (mercator ((lat2 + lat1) / 2))
                + math.radians lon * ln (mercator lat2)
                - math.radians lon * ln (mercator lat1))
               / ln (mercator lat2 / mercator lat1) = math.radians lon).
  { rewrite ln_ratio in * by assumption. field. exact HL. }
  rewrite El.
  destruct (radians_lon_bound lon Hb) as [C0 C1].
  pose proof PI_RGT_0 as Hpi.
  rewrite normalise_in_range
    by (split; [lra | unfold math.radians; unfold valid_lon in Hb; nra]).
  now rewrite !degrees_radians.
Qed.

(** X24. Between two latitudes of one meridian that are at least one
    degree apart and at least one degree from the poles, the meridian at
    least one degree from the 180 meridian, the rhumb midpoint lies on that
    meridian at the mean latitude. *)
Theorem rhumb_midpoint_along_meridian (lat1 lat2 lon : R) :
  -89 <= lat1 <= 89 -> -89 <= lat2 <= 89 ->
  1 <= lat2 - lat1 \/ 1 <= lat1 - lat2 ->
  -179 <= lon <= 179 ->
  Geo.rhumb_midpoint lat1 lon lat2 lon
  = Return (VPair ((lat2 + lat1) / 2) lon).
Proof.
  intros Ha Hc Hne Hb.
  apply rhumb_midpoint_along_meridian_exact; unfold valid_lon; lra.
Qed.

Lemma rhumb_midpoint_along_meridian_witness :
  Geo.rhumb_midpoint 42 4 50 4 = Return (VPair ((50 + 42) / 2) 4).
Proof.
  apply (rhumb_midpoint_along_meridian 42 50 4); lra.
Defined.

(** ** Edge cases of distances and bearings *)

Lemma rhumb_distance_try_nonneg (lat1 lon1 lat2 lon2 d : R) :
  Geo.rhumb_distance_try lat1 lon1 lat2 lon2 = Return d -> 0 <= d.
Proof.
  unfold Geo.rhumb_distance_try.
  destruct (Geo.rhumb_dPhi _ _) as [dPhi | e]; [cbn [bind] | discriminate].
  destruct (Geo.rhumb_q _ _ _) as [q | e]; [cbn [bind] | discriminate].
  unfold math.sqrt. destruct (Rlt_dec _ 0); [discriminate |]. cbn [bind].
  intros H. injection H as <-.
  apply Rmult_le_pos; [apply sqrt_pos | unfold Geo.R_earth; lra].
Qed.

(** X25. On valid points [rhumb_distance] returns the integer 1 of the
    handler or a float that is not negative. *)
Theorem rhumb_distance_nonneg (lat1 lon1 lat2 lon2 : R) :
  valid_lat lat1 -> valid_lon lon1 -> valid_lat lat2 -> valid_lon lon2 ->
  Geo.rhumb_distance lat1 lon1 lat2 lon2 = Return (VInt 1) \/
  exists d,
    Geo.rhumb_distance lat1 lon1 lat2 lon2 = Return (VFloat d) /\ 0 <= d.
Proof.
  intros Ha Hb Hc Hd. unfold Geo.rhumb_distance.
  rewrite check_two_points_valid by assumption. cbn [bind].
  destruct (try_except_total (Geo.rhumb_distance_try lat1 lon1 lat2 lon2)
              (fun dist => VFloat dist))
    as [H | (d & Hd' & H)]; rewrite H; [now left | right].
  exists d. split; [reflexivity |].
  now apply rhumb_distance_try_nonneg with (1 := Hd').
Qed.

Lemma rhumb_distance_nonneg_witness :
  Geo.rhumb_distance 50 4 42 71 = Return (VInt 1) \/
  exists d, Geo.rhumb_distance 50 4 42 71 = Return (VFloat d) /\ 0 <= d.
Proof.
  apply (rhumb_distance_nonneg 50 4 42 71); unfold valid_lat, valid_lon; lra.
Defined.

(** Over the reals.  Along the equator the great-circle bearing is 90
    eastwards and 270 westwards, the final bearing being the other of the
    two. *)
Lemma bearing_along_equator_exact (lon1 lon2 : R) :
  valid_lon lon1 -> valid_lon lon2 ->
  (0 < lon2 - lon1 < 180 \/ -360 < lon2 - lon1 < -180 ->
   Geo.initial_bearing 0 lon1 0 lon2 = Return (VFloat 90) /\
   Geo.final_bearing 0 lon1 0 lon2 = Return (VFloat 270)) /\
  (-180 < lon2 - lon1 < 0 \/ 180 < lon2 - lon1 < 360 ->
   Geo.initial_bearing 0 lon1 0 lon2 = Return (VFloat 270) /\
   Geo.final_bearing 0 lon1 0 lon2 = Return (VFloat 90)).
Proof.
  intros Hb Hd. unfold Geo.initial_bearing, Geo.final_bearing.
  rewrite check_two_points_valid by (unfold valid_lat; try assumption; lra).
  cbn [bind]. unfold Geo.bearing_try. rewrite radians_0, sin_0, cos_0.
  pose proof PI_RGT_0 as Hpi.
  set (x := math.radians lon2 - math.radians lon1).
  set (k := PI / 180).
  assert (Hk : 0 < k) by (unfold k; lra).
  assert (Epi : PI = 180 * k) by (unfold k; field).
  assert (Ex : x = (lon2 - lon1) * k)
    by (unfold x, k, math.radians; ring).
  set (D := lon2 - lon1) in *.
  replace (1 * 0 - 0 * 1 * cos x) with 0 by ring.
  rewrite Rmult_1_r.
  split; intros H.
  - assert (Hs : 0 < sin x).
    { destruct H as [[H0 H1] | [H0 H1]].
      - assert (0 < D * k) by (apply Rmult_lt_0_compat; lra).
        assert (0 < (180 - D) * k) by (apply Rmult_lt_0_compat; lra).
        apply sin_gt_0; lra.
      - assert (0 < (360 + D) * k) by (apply Rmult_lt_0_compat; lra).
        assert (0 < (- 180 - D) * k) by (apply Rmult_lt_0_compat; lra).
        replace (sin x) with (sin (x + 2 * PI))
          by (rewrite sin_plus, sin_2PI, cos_2PI; ring).
        apply sin_gt_0; lra. }
    rewrite atan2_pos_zero by exact Hs. cbn.
    rewrite degrees_PI2, py_mod_450.
    rewrite (py_mod_unique (90 + 180) 360 270 0) by lra.
    split; reflexivity.
  - assert (Hs : sin x < 0).
    { destruct H as [[H0 H1] | [H0 H1]].
      - assert (0 < (- D) * k) by (apply Rmult_lt_0_compat; lra).
        assert (0 < (180 + D) * k) by (apply Rmult_lt_0_compat; lra).
        apply sin_lt_0_var; lra.
      - assert (0 < (360 - D) * k) by (apply Rmult_lt_0_compat; lra).
        assert (0 < (D - 180) * k) by (apply Rmult_lt_0_compat; lra).
        apply sin_lt_0; lra. }
    rewrite atan2_neg_zero by exact Hs. cbn.
    replace (math.degrees (- (PI / 2))) with (-90)
      by (unfold math.degrees; field; lra).
    rewrite py_mod_270.
    rewrite (py_mod_unique (-90 + 180) 360 90 0) by lra.
    split; reflexivity.
Qed.

(** X27. Along the equator, between two longitudes at least one degree
    apart and at least one degree from opposite, the initial bearing is 90
    and the final bearing 270 when the shorter way round goes east, and 270
    and 90 when it goes west. *)
Theorem bearing_along_equator (lon1 lon2 : R) :
  valid_lon lon1 -> valid_lon lon2 ->
  (1 <= lon2 - lon1 <= 179 \/ -359 <= lon2 - lon1 <= -181 ->
   Geo.initial_bearing 0 lon1 0 lon2 = Return (VFloat 90) /\
   Geo.final_bearing 0 lon1 0 lon2 = Return (VFloat 270)) /\
  (-179 <= lon2 - lon1 <= -1 \/ 181 <= lon2 - lon1 <= 359 ->
   Geo.initial_bearing 0 lon1 0 lon2 = Return (VFloat 270) /\
   Geo.final_bearing 0 lon1 0 lon2 = Return (VFloat 90)).
Proof.
  intros Hb Hd.
  destruct (bearing_along_equator_exact lon1 lon2 Hb Hd) as [He Hw].
  split; intros H; [apply He | apply Hw]; lra.
Qed.

Lemma bearing_along_equator_witness :
  (Geo.initial_bearing 0 10 0 50 = Return (VFloat 90) /\
   Geo.final_bearing 0 10 0 50 = Return (VFloat 270)) /\
  (Geo.initial_bearing 0 50 0 10 = Return (VFloat 270) /\
   Geo.final_bearing 0 50 0 10 = Return (VFloat 90)).
Proof.
  split.
  - apply (bearing_along_equator 10 50); unfold valid_lon; lra.
  - apply (bearing_along_equator 50 10); unfold valid_lon; lra.
Defined.
